(** * FileSynchronizer: change detection over a hashed directory tree

    A shallow embedding of [packages/core/src/sync/synchronizer.ts].

    JavaScript strings are [string]s, a [Map<string, string>] is an
    insertion-ordered association list with unique keys, the synchronizer
    object is a record that is passed in and out of every method, and the
    file system is an explicit store with injected failures.  Functions of
    Node and of npm packages ([path], [os], [crypto], [minimatch]) are
    section variables; a model of [minimatch] for plain glob patterns is
    given separately and used where a property depends on what a glob
    matches.  Console output is not modelled. *)

From Stdlib Require Import Bool Arith Lia List Ascii String.
From Stdlib Require Import Permutation Sorted Orders Mergesort.
From Stdlib Require OrderedTypeEx Eqdep_dec.
Import ListNotations.

Local Open Scope string_scope.
Local Open Scope list_scope.

Notation "a +s+ b" := (String.append a b)
  (at level 60, right associativity).

(** ** JavaScript string primitives *)

Module JsString.

(** [s.startsWith(p)] *)
Definition startsWith (s p : string) : bool := String.prefix p s.

(** [s.endsWith(p)]: some suffix of [s] is [p]. *)
Fixpoint endsWith (s p : string) : bool :=
  (s =? p)%string ||
  match s with
  | EmptyString => false
  | String _ s' => endsWith s' p
  end.

(** [s.includes(c)] for a one-character needle. *)
Fixpoint includes (s : string) (c : ascii) : bool :=
  match s with
  | EmptyString => false
  | String a s' => (a =? c)%char || includes s' c
  end.

(** [s.split(sep)] for a one-character separator; never empty. *)
Fixpoint split (sep : ascii) (s : string) : list string :=
  match s with
  | EmptyString => [EmptyString]
  | String c s' =>
      if (c =? sep)%char then EmptyString :: split sep s'
      else match split sep s' with
           | [] => [String c EmptyString]
           | t :: ts => String c t :: ts
           end
  end.

(** [s.replace(/c/g, d)] for single characters. *)
Fixpoint replaceAll (c d : ascii) (s : string) : string :=
  match s with
  | EmptyString => EmptyString
  | String a s' => String (if (a =? c)%char then d else a) (replaceAll c d s')
  end.

(** Removal of the leading run of characters satisfying [p]. *)
Fixpoint dropLeading (p : ascii -> bool) (s : string) : string :=
  match s with
  | EmptyString => EmptyString
  | String a s' => if p a then dropLeading p s' else s
  end.

(** Removal of the trailing run of characters satisfying [p]. *)
Fixpoint dropTrailing (p : ascii -> bool) (s : string) : string :=
  match s with
  | EmptyString => EmptyString
  | String a s' =>
      match dropTrailing p s' with
      | EmptyString => if p a then EmptyString else String a EmptyString
      | t => String a t
      end
  end.

(** White space of [String.prototype.trim] among code units below 256:
    TAB, LF, VT, FF, CR, SPACE and NBSP. *)
Definition isWhiteSpace (a : ascii) : bool :=
  let n := nat_of_ascii a in
  (((9 <=? n) && (n <=? 13)) || (n =? 32) || (n =? 160))%nat.

(** [s.trim()] *)
Definition trim (s : string) : string :=
  dropTrailing isWhiteSpace (dropLeading isWhiteSpace s).

(** [s.slice(1)] *)
Definition sliceFrom1 (s : string) : string :=
  match s with
  | EmptyString => EmptyString
  | String _ s' => s'
  end.

(** [s.slice(0, -n)] *)
Definition sliceDropLast (n : nat) (s : string) : string :=
  String.substring 0 (String.length s - n) s.

(** String coercion of the result of [Map.prototype.get] inside a
    concatenation: a missing key gives the text [undefined]. *)
Definition ofOption (o : option string) : string :=
  match o with
  | Some s => s
  | None => "undefined"
  end.

Definition isEmpty (s : string) : bool :=
  match s with
  | EmptyString => true
  | _ => false
  end.

End JsString.

(** ** [Map<string, string>]: insertion order, unique keys *)

Module JsMap.

Definition keyIs (k : string) (e : string * string) : bool :=
  (fst e =? k)%string.

Fixpoint uniqueb (ks : list string) : bool :=
  match ks with
  | [] => true
  | k :: r => negb (existsb (String.eqb k) r) && uniqueb r
  end.

Record t : Type := mk {
  entries : list (string * string);
  unique : uniqueb (map fst entries) = true
}.

Definition keys (m : t) : list string := map fst (entries m).
Definition values (m : t) : list string := map snd (entries m).
Definition size (m : t) : nat := List.length (entries m).

Definition has (m : t) (k : string) : bool :=
  existsb (keyIs k) (entries m).

Definition get (m : t) (k : string) : option string :=
  option_map snd (find (keyIs k) (entries m)).

Definition empty : t := mk [] eq_refl.

(** Two maps are equal as mappings when every key reads the same. *)
Definition sameMapping (m1 m2 : t) : Prop :=
  forall k, get m1 k = get m2 k.

End JsMap.

(** [Array.prototype.sort()] with the default comparison on an array of
    strings: ascending by code units, which is [String.leb]. *)
Module StringOrder <: TotalLeBool.
Definition t := string.
Definition leb := String.leb.
Theorem leb_total : forall x y, leb x y = true \/ leb y x = true.
Proof. exact String.leb_total. Qed.
End StringOrder.

Module StringSort := Mergesort.Sort StringOrder.

(** The result type of [compareStates], [MerkleDAG.compare] and
    [checkForChanges]. *)
Record Changes : Type := mkChanges {
  added : list string;
  removed : list string;
  modified : list string
}.

Definition noChanges : Changes := mkChanges [] [] [].

(** ** The fingerprint tree *)

Module MerkleDAG.

(** Modelled from the spec: the module [./merkle] is not among the
    sources.  A node is an identifier plus a content string, attached to
    a parent or not; a tree owns a flat list of nodes and the
    identifiers of its roots. *)
Record MerkleDAGNode : Type := mkNode {
  id : string;
  data : string;
  parent : option string
}.

Record t : Type := mkDAG {
  nodes : list MerkleDAGNode;
  rootIds : list string
}.

Definition empty : t := mkDAG [] [].

Definition nodeIds (dag : t) : list string := map id (nodes dag).

Definition getNode (dag : t) (i : string) : option MerkleDAGNode :=
  find (fun n => (id n =? i)%string) (nodes dag).

Definition hasNode (dag : t) (i : string) : bool :=
  existsb (String.eqb i) (nodeIds dag).

(** Modelled from the spec: [addNode(content, parentId?) -> nodeId] on
    the flat node list; the identifier is derived from the content by
    the digest [digest], and a node without a parent is a root. *)
Definition addNode (digest : string -> string) (dag : t)
    (content : string) (parentId : option string) : string * t :=
  let nodeId := digest content in
  (nodeId,
   mkDAG (nodes dag ++ [mkNode nodeId content parentId])
         (match parentId with
          | None => rootIds dag ++ [nodeId]
          | Some _ => rootIds dag
          end)).

(** Modelled from the spec: [compare(a, b) -> {added, removed,
    modified}] over node identity and content: identifiers only in
    [b], identifiers only in [a], and identifiers in both whose
    content differs. *)
Definition compare (a b : t) : Changes :=
  mkChanges
    (filter (fun i => negb (hasNode a i)) (nodeIds b))
    (filter (fun i => negb (hasNode b i)) (nodeIds a))
    (filter (fun i => match getNode a i, getNode b i with
                      | Some n1, Some n2 => negb (data n1 =? data n2)%string
                      | _, _ => false
                      end) (nodeIds a)).

End MerkleDAG.

(** ** The synchronizer: fingerprint and exact diff *)

Section Fingerprint.

(** The digest behind [MerkleDAG.addNode]. *)
Variable digest : string -> string.

(** The [forEach] loop of [buildMerkleDAG] over [keys]. *)
Definition valuesString (fileHashes : JsMap.t) : string :=
  fold_left
    (fun acc key => acc +s+ JsString.ofOption (JsMap.get fileHashes key))
    (JsMap.keys fileHashes) "".

Definition rootNodeData (fileHashes : JsMap.t) : string :=
  "root:" +s+ valuesString fileHashes.

Definition sortedPaths (fileHashes : JsMap.t) : list string :=
  StringSort.sort (JsMap.keys fileHashes).

Definition fileData (fileHashes : JsMap.t) (path : string) : string :=
  path +s+ ":" +s+ JsString.ofOption (JsMap.get fileHashes path).

Definition buildMerkleDAG (fileHashes : JsMap.t) : MerkleDAG.t :=
  let dag := MerkleDAG.empty in
  let '(rootNodeId, dag) :=
    MerkleDAG.addNode digest dag (rootNodeData fileHashes) None in
  fold_left
    (fun dag path =>
       snd (MerkleDAG.addNode digest dag (fileData fileHashes path)
                              (Some rootNodeId)))
    (sortedPaths fileHashes) dag.

End Fingerprint.

(** [oldHashes.get(file) !== hash] *)
Definition differsFrom (o : option string) (hash : string) : bool :=
  match o with
  | Some h => negb (h =? hash)%string
  | None => true
  end.

Definition compareStates (oldHashes newHashes : JsMap.t) : Changes :=
  let newEntries := JsMap.entries newHashes in
  let '(added, modified) :=
    fold_left
      (fun '(added, modified) '(file, hash) =>
         if negb (JsMap.has oldHashes file) then (added ++ [file], modified)
         else if differsFrom (JsMap.get oldHashes file) hash
              then (added, modified ++ [file])
              else (added, modified))
      newEntries ([], []) in
  let oldKeys := JsMap.keys oldHashes in
  let removed :=
    fold_left
      (fun removed file =>
         if negb (JsMap.has newHashes file) then removed ++ [file]
         else removed)
      oldKeys [] in
  mkChanges added removed modified.

(** ** The synchronizer object and the file system *)

Record FileSynchronizer : Type := mkSync {
  fileHashes : JsMap.t;
  merkleDAG : MerkleDAG.t;
  rootDir : string;
  snapshotPath : string;
  ignorePatterns : list string
}.

(** The error object of a rejected [fs] call. *)
Record FsError : Type := mkFsError {
  code : string;
  message : string
}.

(** The snapshot document that [saveSnapshot] hands to
    [JSON.stringify]: the pairs of the mapping and the serialized tree. *)
Record SnapshotDoc : Type := mkDoc {
  doc_fileHashes : list (string * option string);
  doc_merkleDAG : MerkleDAG.t
}.

Inductive FsCall : Type := Mkdir | WriteFile | Unlink.

(** The part of the file system the synchronizer writes: the snapshot
    files by path, the directories made, and the failure the platform
    answers a call on a path with, if any (EACCES, ENOSPC, ...). *)
Record FileSystem : Type := mkFs {
  files : list (string * SnapshotDoc);
  directories : list string;
  failure : FsCall -> string -> option FsError
}.

Inductive Result (A : Type) : Type :=
| Ok (a : A)
| Throw (e : FsError).

Arguments Ok {A} a.
Arguments Throw {A} e.

(** A computation over a state [S] that returns or throws. *)
Definition M (S A : Type) : Type := S -> Result A * S.

Definition ret {S A : Type} (a : A) : M S A := fun s => (Ok a, s).

Definition throw {S A : Type} (e : FsError) : M S A := fun s => (Throw e, s).

Definition bind {S A B : Type} (m : M S A) (k : A -> M S B) : M S B :=
  fun s =>
    match m s with
    | (Ok a, s') => k a s'
    | (Throw e, s') => (Throw e, s')
    end.

Definition tryCatch {S A : Type} (m : M S A) (handler : FsError -> M S A)
  : M S A :=
  fun s =>
    match m s with
    | (Ok a, s') => (Ok a, s')
    | (Throw e, s') => handler e s'
    end.

Notation "x <- m ;; k" := (bind m (fun x => k))
  (at level 61, m at next level, right associativity).

Definition hasFile (fs : FileSystem) (path : string) : bool :=
  existsb (fun f => (fst f =? path)%string) (files fs).

(** [fs.unlink(path)] *)
Definition unlink (path : string) : M FileSystem unit :=
  fun fs =>
    match failure fs Unlink path with
    | Some e => (Throw e, fs)
    | None =>
        if hasFile fs path
        then (Ok tt,
              mkFs (filter (fun f => negb (fst f =? path)%string) (files fs))
                   (directories fs) (failure fs))
        else (Throw (mkFsError "ENOENT" "no such file or directory"), fs)
    end.

(** [fs.mkdir(path, { recursive: true })] *)
Definition mkdir (path : string) : M FileSystem unit :=
  fun fs =>
    match failure fs Mkdir path with
    | Some e => (Throw e, fs)
    | None =>
        (Ok tt,
         if existsb (String.eqb path) (directories fs) then fs
         else mkFs (files fs) (path :: directories fs) (failure fs))
    end.

(** [fs.writeFile(path, data)] *)
Definition writeFile (path : string) (doc : SnapshotDoc) : M FileSystem unit :=
  fun fs =>
    match failure fs WriteFile path with
    | Some e => (Throw e, fs)
    | None =>
        (Ok tt,
         mkFs ((path, doc)
                 :: filter (fun f => negb (fst f =? path)%string) (files fs))
              (directories fs) (failure fs))
    end.

(** The methods run on the object and the file system together. *)
Definition World : Type := (FileSynchronizer * FileSystem)%type.

Definition Sync (A : Type) : Type := M World A.

Definition getThis : Sync FileSynchronizer := fun w => (Ok (fst w), w).

Definition setThis (this : FileSynchronizer) : Sync unit :=
  fun w => (Ok tt, (this, snd w)).

Definition onDisk {A : Type} (m : M FileSystem A) : Sync A :=
  fun w => let '(r, fs') := m (snd w) in (r, (fst w, fs')).

Section Synchronizer.

(** [os.homedir()], [path.join], [path.resolve], [path.dirname], the
    MD5 hex digest of [crypto], and the digest of the tree's nodes. *)
Variable homedir : string.
Variable path_join : list string -> string.
Variable path_resolve : string -> string.
Variable path_dirname : string -> string.
Variable md5_hex : string -> string.
Variable digest : string -> string.

Definition getSnapshotPath (codebasePath : string) : string :=
  let merkleDir := path_join [homedir; ".context"; "merkle"] in
  let normalizedPath := path_resolve codebasePath in
  let hash := md5_hex normalizedPath in
  path_join [merkleDir; hash +s+ ".json"].

(** The constructor. *)
Definition newFileSynchronizer (rootDir : string)
    (ignorePatterns : list string) : FileSynchronizer :=
  mkSync JsMap.empty MerkleDAG.empty rootDir (getSnapshotPath rootDir)
         ignorePatterns.

Definition saveSnapshot : Sync unit :=
  this <- getThis ;;
  let merkleDir := path_dirname (snapshotPath this) in
  _ <- onDisk (mkdir merkleDir) ;;
  let fileHashesArray :=
    map (fun key => (key, JsMap.get (fileHashes this) key))
        (JsMap.keys (fileHashes this)) in
  let data := mkDoc fileHashesArray (merkleDAG this) in
  onDisk (writeFile (snapshotPath this) data).

Definition nonEmpty (l : list string) : bool := (0 <? List.length l)%nat.

(** [checkForChanges()]; [newFileHashes] is the value of
    [await this.generateFileHashes(this.rootDir)], the scan of the
    tree, which reads the directory and writes nothing. *)
Definition checkForChanges (newFileHashes : JsMap.t) : Sync Changes :=
  this <- getThis ;;
  let newMerkleDAG := buildMerkleDAG digest newFileHashes in
  let changes := MerkleDAG.compare (merkleDAG this) newMerkleDAG in
  if nonEmpty (added changes) || nonEmpty (removed changes)
     || nonEmpty (modified changes)
  then
    let fileChanges := compareStates (fileHashes this) newFileHashes in
    _ <- setThis (mkSync newFileHashes newMerkleDAG (rootDir this)
                         (snapshotPath this) (ignorePatterns this)) ;;
    _ <- saveSnapshot ;;
    ret fileChanges
  else ret noChanges.

Definition getFileHash (this : FileSynchronizer) (filePath : string)
  : option string :=
  JsMap.get (fileHashes this) filePath.

Definition updateIgnorePatterns (patterns : list string) : Sync unit :=
  this <- getThis ;;
  setThis (mkSync (fileHashes this) (merkleDAG this) (rootDir this)
                  (snapshotPath this) patterns).

(** [static deleteSnapshot(codebasePath)] *)
Definition deleteSnapshot (codebasePath : string) : M FileSystem unit :=
  let merkleDir := path_join [homedir; ".context"; "merkle"] in
  let normalizedPath := path_resolve codebasePath in
  let hash := md5_hex normalizedPath in
  let snapshotPath := path_join [merkleDir; hash +s+ ".json"] in
  tryCatch (unlink snapshotPath)
    (fun error =>
       if (code error =? "ENOENT")%string then ret tt
       else throw error).

End Synchronizer.

(** ** Path filtering *)

Record MinimatchOptions : Type := mkOpts {
  dot : bool;
  nocase : bool;
  matchBase : bool
}.

Section PathMatcher.

(** [path.sep] and the [minimatch] function of the package. *)
Variable sep : ascii.
Variable minimatch : string -> string -> MinimatchOptions -> bool.

Definition isSlash (a : ascii) : bool := (a =? "/")%char.

Definition matchGitignorePattern
    (normalizedPath pathWithSlash rawPattern : string)
    (isDirectory : bool) : bool :=
  if JsString.isEmpty rawPattern || JsString.startsWith rawPattern "#"
  then false
  else
    let pattern := JsString.trim rawPattern in
    if JsString.isEmpty pattern then false
    else if JsString.startsWith pattern "!" then false
    else
      let isRootRelative := JsString.startsWith pattern "/" in
      let isDirectoryPattern := JsString.endsWith pattern "/" in
      let pattern :=
        if isRootRelative then JsString.sliceFrom1 pattern else pattern in
      let pattern :=
        if isDirectoryPattern then JsString.sliceDropLast 1 pattern
        else pattern in
      let hasSlash := JsString.includes pattern "/" in
      let minimatchOpts :=
        mkOpts false false (negb hasSlash && negb isRootRelative) in
      if isDirectoryPattern then
        if isDirectory && minimatch normalizedPath pattern minimatchOpts
        then true
        else if isDirectory && negb isRootRelative
                && minimatch normalizedPath ("**/" +s+ pattern)
                             minimatchOpts
        then true
        else
          let dirGlob := pattern +s+ "/**" in
          if minimatch normalizedPath dirGlob minimatchOpts then true
          else if negb isRootRelative
                  && minimatch normalizedPath ("**/" +s+ dirGlob)
                               minimatchOpts
          then true
          else false
      else if isRootRelative then
        if minimatch normalizedPath pattern minimatchOpts then true
        else if minimatch normalizedPath (pattern +s+ "/**") minimatchOpts
        then true
        else false
      else if hasSlash then
        if JsString.endsWith pattern "/**"
           && minimatch normalizedPath (JsString.sliceDropLast 3 pattern)
                        minimatchOpts
        then true
        else if minimatch normalizedPath pattern minimatchOpts then true
        else if minimatch normalizedPath (pattern +s+ "/**") minimatchOpts
        then true
        else if minimatch normalizedPath ("**/" +s+ pattern) minimatchOpts
        then true
        else minimatch normalizedPath ("**/" +s+ pattern +s+ "/**")
                       minimatchOpts
      else minimatch normalizedPath pattern minimatchOpts.

(** A segment of the path that starts with a dot. *)
Definition hasHiddenPart (relativePath : string) : bool :=
  existsb (fun part => JsString.startsWith part ".")
          (JsString.split sep relativePath).

(** [relativePath.replace(/\\/g, '/').replace(/^\/+|\/+$/g, '')] *)
Definition normalizePath (relativePath : string) : string :=
  JsString.dropTrailing isSlash
    (JsString.dropLeading isSlash
       (JsString.replaceAll "\" "/" relativePath)).

Definition shouldIgnore (this : FileSynchronizer) (relativePath : string)
    (isDirectory : bool) : bool :=
  if hasHiddenPart relativePath then true
  else if (List.length (ignorePatterns this) =? 0)%nat then false
  else
    let normalizedPath := normalizePath relativePath in
    if JsString.isEmpty normalizedPath then false
    else
      let pathToCheck :=
        if isDirectory then normalizedPath +s+ "/" else normalizedPath in
      existsb
        (fun rawPattern =>
           matchGitignorePattern normalizedPath pathToCheck rawPattern
                                 isDirectory)
        (ignorePatterns this).

End PathMatcher.

(** ** A model of [minimatch] for plain glob patterns

    The package is a dependency, not part of the sources.  The model
    follows its matching of a slash-separated path against one pattern
    set: the pattern is split into segments, a segment [**] is a
    globstar, any other segment matches one path segment, literally or
    with the wildcards [*] and [?].  It covers the options [dot] and
    [matchBase] with [nocase] off.  Brace sets, character classes,
    extglobs, escapes and the simplification of [..] are outside it. *)

Module Minimatch.

Inductive Part : Type :=
| Globstar
| Segment (p : string).

(** [s.split(/\/+/)]: the interior empty pieces of [s.split('/')] go. *)
Fixpoint dropInteriorEmpty (ts : list string) : list string :=
  match ts with
  | [] => []
  | [last] => [last]
  | x :: rest =>
      if JsString.isEmpty x then dropInteriorEmpty rest
      else x :: dropInteriorEmpty rest
  end.

Definition slashSplit (s : string) : list string :=
  match JsString.split "/" s with
  | [] => []
  | t :: ts => t :: dropInteriorEmpty ts
  end.

Definition parse (pattern : string) : list Part :=
  map (fun s => if (s =? "**")%string then Globstar else Segment s)
      (slashSplit pattern).

(** Leading [!]s negate the pattern. *)
Fixpoint parseNegate (pattern : string) : bool * string :=
  match pattern with
  | String c rest =>
      if (c =? "!")%char
      then let '(n, p) := parseNegate rest in (negb n, p)
      else (false, pattern)
  | EmptyString => (false, pattern)
  end.

Definition isMagic (c : ascii) : bool := (c =? "*")%char || (c =? "?")%char.

Fixpoint hasMagic (p : string) : bool :=
  match p with
  | EmptyString => false
  | String c p' => isMagic c || hasMagic p'
  end.

(** The wildcards within one segment. *)
Fixpoint wild (p : string) : string -> bool :=
  match p with
  | EmptyString => JsString.isEmpty
  | String c p' =>
      if (c =? "*")%char then
        fix star (f : string) : bool :=
          wild p' f ||
          match f with
          | EmptyString => false
          | String _ f' => star f'
          end
      else if (c =? "?")%char then
        fun f => match f with
                 | EmptyString => false
                 | String _ f' => wild p' f'
                 end
      else
        fun f => match f with
                 | EmptyString => false
                 | String d f' => (c =? d)%char && wild p' f'
                 end
  end.

(** A name that wildcards and globstars pass over unless [dot] is
    set; [.] and [..] are passed over always. *)
Definition isDotDir (f : string) : bool :=
  (f =? ".")%string || (f =? "..")%string.

Definition dotBlocked (dot : bool) (f : string) : bool :=
  isDotDir f || (negb dot && JsString.startsWith f ".").

Definition matchSegment (dot : bool) (p f : string) : bool :=
  if hasMagic p then
    if isDotDir f then false
    else if negb dot && JsString.startsWith f "."
            && negb (JsString.startsWith p ".")
    then false
    else if JsString.isEmpty f then false
    else wild p f
  else (f =? p)%string.

(** [matchOne(file, pattern)] without partial matching. *)
Fixpoint matchOne (dot : bool) (pattern : list Part)
  : list string -> bool :=
  match pattern with
  | [] =>
      fun file =>
        match file with
        | [] => true
        | [f] => JsString.isEmpty f
        | _ => false
        end
  | Globstar :: rest =>
      match rest with
      | [] =>
          fun file =>
            match file with
            | [] => false
            | _ => forallb (fun f => negb (dotBlocked dot f)) file
            end
      | _ =>
          fix swallow (file : list string) : bool :=
            match file with
            | [] => false
            | swallowee :: file' =>
                matchOne dot rest file
                || (if dotBlocked dot swallowee then false
                    else swallow file')
            end
      end
  | Segment p :: rest =>
      fun file =>
        match file with
        | [] => false
        | f :: file' => matchSegment dot p f && matchOne dot rest file'
        end
  end.

(** The last non-empty segment of the path. *)
Definition filename (ff : list string) : string :=
  match filter (fun f => negb (JsString.isEmpty f)) (rev ff) with
  | f :: _ => f
  | [] => EmptyString
  end.

Definition minimatch (p pattern : string) (options : MinimatchOptions)
  : bool :=
  if JsString.startsWith pattern "#" then false
  else if JsString.isEmpty pattern then JsString.isEmpty p
  else
    let '(negate, pattern) := parseNegate pattern in
    let ff := slashSplit p in
    let set := parse pattern in
    let file :=
      if matchBase options && (List.length set =? 1)%nat
      then [filename ff] else ff in
    xorb negate (matchOne (dot options) set file).

End Minimatch.

(** The mappings of the diff example: old [{a:h1, b:h2}], new
    [{b:h2, c:h3}]. *)
Definition exampleOld : JsMap.t :=
  JsMap.mk [("a", "h1"); ("b", "h2")] eq_refl.

Definition exampleNew : JsMap.t :=
  JsMap.mk [("b", "h2"); ("c", "h3")] eq_refl.

(** ** Notions used to state the properties *)

(** The content of the root node of a tree, when it has one. *)
Definition rootContent (dag : MerkleDAG.t) : option string :=
  match MerkleDAG.rootIds dag with
  | r :: _ => option_map MerkleDAG.data (MerkleDAG.getNode dag r)
  | [] => None
  end.

(** The leaf that [buildMerkleDAG] adds for a path under the root
    [rootNodeId]. *)
Definition leafNode (digest : string -> string) (fileHashes : JsMap.t)
    (rootNodeId path : string) : MerkleDAG.MerkleDAGNode :=
  MerkleDAG.mkNode (digest (fileData fileHashes path))
                   (fileData fileHashes path) (Some rootNodeId).

(** The synchronizer with another pattern list. *)
Definition withPatterns (this : FileSynchronizer) (patterns : list string)
  : FileSynchronizer :=
  mkSync (fileHashes this) (merkleDAG this) (rootDir this)
         (snapshotPath this) patterns.

(** The three lists of a diff have no duplicates and share no path. *)
Definition separateLists (d : Changes) : Prop :=
  NoDup (added d) /\ NoDup (removed d) /\ NoDup (modified d)
  /\ (forall p, ~ (In p (added d) /\ In p (removed d)))
  /\ (forall p, ~ (In p (added d) /\ In p (modified d)))
  /\ (forall p, ~ (In p (removed d) /\ In p (modified d))).

Definition isAdded (oldHashes : JsMap.t) (file : string) : bool :=
  negb (JsMap.has oldHashes file).

Definition isModified (oldHashes : JsMap.t) (e : string * string) : bool :=
  JsMap.has oldHashes (fst e)
  && differsFrom (JsMap.get oldHashes (fst e)) (snd e).

(** Concatenation of a list of strings, left to right. *)
Definition joinAll (l : list string) : string :=
  fold_right String.append EmptyString l.

(** The hash text that the concatenations of [buildMerkleDAG] read at a
    path. *)
Definition hashAt (fileHashes : JsMap.t) (path : string) : string :=
  JsString.ofOption (JsMap.get fileHashes path).

(** The mapping [{b:2, a:1}], filled in that order. *)
Definition unsortedState : JsMap.t :=
  JsMap.mk [("b", "2"); ("a", "1")] eq_refl.

(** Two one-file mappings with the same hash under different paths. *)
Definition stateA : JsMap.t := JsMap.mk [("a", "h")] eq_refl.
Definition stateB : JsMap.t := JsMap.mk [("b", "h")] eq_refl.

(** A file system that holds nothing and fails no call. *)
Definition emptyDisk : FileSystem := mkFs [] [] (fun _ _ => None).

(** A synchronizer that holds [{a:h}] and its tree. *)
Definition readyA : FileSynchronizer :=
  mkSync stateA (buildMerkleDAG (fun s => s) stateA) "/repo"
         "/home/.context/merkle/0.json" [].

(** A synchronizer that holds [{a:h1, b:h2}] and its tree. *)
Definition readyOld : FileSynchronizer :=
  mkSync exampleOld (buildMerkleDAG (fun s => s) exampleOld) "/repo"
         "/home/.context/merkle/0.json" [].

(** A file system on which removing any file is refused. *)
Definition lockedDisk : FileSystem :=
  mkFs [] []
       (fun call _ =>
          match call with
          | Unlink => Some (mkFsError "EACCES" "permission denied")
          | _ => None
          end).

(** A file system on which the directory of the snapshots is missing. *)
Definition bareDisk : FileSystem :=
  mkFs [] []
       (fun call _ =>
          match call with
          | Unlink => Some (mkFsError "ENOENT" "no such file or directory")
          | _ => None
          end).

Definition joinSlash (parts : list string) : string :=
  String.concat "/" parts.

(** A raw pattern that is empty, a comment or a negation. *)
Definition inertPattern (rawPattern : string) : bool :=
  JsString.isEmpty rawPattern
  || JsString.startsWith rawPattern "#"
  || JsString.startsWith rawPattern "!".

(** A synchronizer over [/test] with the given patterns, as the tests of
    the repository build it. *)
Definition testSynchronizer (patterns : list string) : FileSynchronizer :=
  mkSync JsMap.empty MerkleDAG.empty "/test" "" patterns.

(** What [dropTrailing] removes is a run of characters satisfying [p]. *)
Fixpoint allChars (p : ascii -> bool) (s : string) : bool :=
  match s with
  | EmptyString => true
  | String a s' => p a && allChars p s'
  end.

(** The options that [matchGitignorePattern] passes for a root-relative
    pattern. *)
Definition rootRelativeOpts : MinimatchOptions := mkOpts false false false.

(** The helper of [synchronizer.test.ts]: [shouldIgnore] of a synchronizer
    over [/test] with the given patterns, the separator being the slash,
    with the model of [minimatch]. *)
Definition testShouldIgnore (patterns : list string)
    (relativePath : string) (isDirectory : bool) : bool :=
  shouldIgnore "/" Minimatch.minimatch (testSynchronizer patterns)
               relativePath isDirectory.

(** The pattern lists of the blocks of [synchronizer.test.ts]. *)
Definition patterns_root_relative : list string :=
  ["/public/app"; "/public/js"; "/.tmp/"].

Definition patterns_directory : list string :=
  ["node_modules/"; "dist/"; ".cache/"].

Definition patterns_globstar : list string :=
  ["**/*.log"; "build/**"; ".next/**"].

Definition patterns_hot_update : list string :=
  ["*.hot-update.js"; "*.hot-update.json"; "*.hot-update.js.map"].

Definition patterns_filename : list string :=
  ["*.min.js"; "*.bundle.css"; ".env"].

Definition patterns_hidden_files : list string :=
  [].

Definition patterns_real_world : list string :=
  ["/.tmp/"; "/public/app"; "/public/carousel"; "/public/css";
   "/public/js"; "/public/messages"; "/node_modules"; "*.log"].

(** ** [Map.prototype.set] and the loops that fill a map *)

(** [Map.prototype.set] on the entry list: an existing key keeps its
    place and takes the new value, a new key goes to the end. *)
Fixpoint setEntries (l : list (string * string)) (k v : string)
  : list (string * string) :=
  match l with
  | [] => [(k, v)]
  | e :: r => if JsMap.keyIs k e then (k, v) :: r else e :: setEntries r k v
  end.

(** [m.set(k, v)].  The keys of [setEntries] stay unique
    ([setEntries_unique] below), so the second branch is never taken. *)
Definition mapSet (m : JsMap.t) (k v : string) : JsMap.t :=
  match JsMap.uniqueb (map fst (setEntries (JsMap.entries m) k v)) as b
        return JsMap.uniqueb (map fst (setEntries (JsMap.entries m) k v)) = b
               -> JsMap.t
  with
  | true => fun H => JsMap.mk (setEntries (JsMap.entries m) k v) H
  | false => fun _ => m
  end eq_refl.

(** The loops [for (const [p, h] of entries) fileHashes.set(p, h)]. *)
Definition mapSetAll (m : JsMap.t) (pairs : list (string * string))
  : JsMap.t :=
  fold_left (fun m '(p, h) => mapSet m p h) pairs m.

(** ** The scanned directory tree

    What the calls of one scan answer: the listing of a directory
    ([fs.readdir] with file types) or its failure; for each entry its
    name, the answer of [Dirent.isDirectory()] and the answer of
    [fs.stat] on it, which fails or leads to what is there; for a
    regular file the answer of the second [fs.stat], inside [hashFile],
    and of [fs.readFile].  A tree is finite: a cycle of links is outside
    it. *)

Inductive StatKind : Type := StatDirectory | StatFile | StatOther.

#[warnings="-register-all"] Inductive FsTree : Type :=
| Directory (listing : Result (list (string * bool * Result FsTree)))
| RegularFile (restat : Result StatKind) (content : Result string)
| Special.

Definition Dirent : Type := (string * bool * Result FsTree)%type.

Section Scan.

(** [path.sep], [minimatch], [path.join], [path.relative] and the SHA-256
    hex digest of [crypto]. *)
Variable sep : ascii.
Variable minimatch : string -> string -> MinimatchOptions -> bool.
Variable path_join : list string -> string.
Variable path_relative : string -> string -> string.
Variable sha256_hex : string -> string.

(** [hashFile(filePath)]: [restat] is the answer of its [fs.stat],
    [content] the answer of its [fs.readFile].  The error it makes
    itself has no code. *)
Definition hashFile (filePath : string) (restat : Result StatKind)
    (content : Result string) : Result string :=
  match restat with
  | Throw e => Throw e
  | Ok stat =>
      match stat with
      | StatDirectory =>
          Throw (mkFsError ""
                   ("Attempted to hash a directory: " +s+ filePath))
      | _ =>
          match content with
          | Throw e => Throw e
          | Ok text => Ok (sha256_hex text)
          end
      end
  end.

(** [generateFileHashes(dir)] on the tree that is at [dir]. *)
Fixpoint generateFileHashes (this : FileSynchronizer) (dir : string)
    (node : FsTree) {struct node} : Result JsMap.t :=
  match node with
  | Directory (Ok entries) =>
      (fix loop (entries : list Dirent) (fileHashes : JsMap.t)
           {struct entries} : Result JsMap.t :=
         match entries with
         | [] => Ok fileHashes
         | (name, direntIsDirectory, stat) :: rest =>
             let fullPath := path_join [dir; name] in
             let relativePath := path_relative (rootDir this) fullPath in
             if shouldIgnore sep minimatch this relativePath
                             direntIsDirectory
             then loop rest fileHashes
             else
               match stat with
               | Throw _ => loop rest fileHashes
               | Ok target =>
                   match target with
                   | Directory _ =>
                       if negb (shouldIgnore sep minimatch this
                                             relativePath true)
                       then
                         match generateFileHashes this fullPath target with
                         | Ok subHashes =>
                             loop rest
                                  (mapSetAll fileHashes
                                             (JsMap.entries subHashes))
                         | Throw e => Throw e
                         end
                       else loop rest fileHashes
                   | RegularFile restat content =>
                       if negb (shouldIgnore sep minimatch this
                                             relativePath false)
                       then
                         match hashFile fullPath restat content with
                         | Ok hash =>
                             loop rest
                                  (mapSet fileHashes relativePath hash)
                         | Throw _ => loop rest fileHashes
                         end
                       else loop rest fileHashes
                   | Special => loop rest fileHashes
                   end
               end
         end) entries JsMap.empty
  | _ => Ok JsMap.empty
  end.

End Scan.

(** The height of a tree, for induction on it. *)
Fixpoint height (node : FsTree) : nat :=
  match node with
  | Directory (Ok entries) =>
      S ((fix heights (entries : list Dirent) : nat :=
            match entries with
            | [] => 0
            | (_, _, stat) :: rest =>
                Nat.max (match stat with
                         | Ok target => height target
                         | Throw _ => 0
                         end)
                        (heights rest)
            end) entries)
  | _ => 0
  end.

Section ScanLoop.

Variable sep : ascii.
Variable minimatch : string -> string -> MinimatchOptions -> bool.
Variable path_join : list string -> string.
Variable path_relative : string -> string -> string.
Variable sha256_hex : string -> string.

(** The loop of [generateFileHashes] over the entries of [dir], from the
    map built so far. *)
Fixpoint scanEntries (this : FileSynchronizer) (dir : string)
    (entries : list Dirent) (fileHashes : JsMap.t) {struct entries}
  : Result JsMap.t :=
  match entries with
  | [] => Ok fileHashes
  | (name, direntIsDirectory, stat) :: rest =>
      let fullPath := path_join [dir; name] in
      let relativePath := path_relative (rootDir this) fullPath in
      if shouldIgnore sep minimatch this relativePath direntIsDirectory
      then scanEntries this dir rest fileHashes
      else
        match stat with
        | Throw _ => scanEntries this dir rest fileHashes
        | Ok target =>
            match target with
            | Directory _ =>
                if negb (shouldIgnore sep minimatch this relativePath true)
                then
                  match generateFileHashes sep minimatch path_join
                          path_relative sha256_hex this fullPath target with
                  | Ok subHashes =>
                      scanEntries this dir rest
                        (mapSetAll fileHashes (JsMap.entries subHashes))
                  | Throw e => Throw e
                  end
                else scanEntries this dir rest fileHashes
            | RegularFile restat content =>
                if negb (shouldIgnore sep minimatch this relativePath false)
                then
                  match hashFile sha256_hex fullPath restat content with
                  | Ok hash =>
                      scanEntries this dir rest
                        (mapSet fileHashes relativePath hash)
                  | Throw _ => scanEntries this dir rest fileHashes
                  end
                else scanEntries this dir rest fileHashes
            | Special => scanEntries this dir rest fileHashes
            end
        end
  end.

End ScanLoop.

Section ScanTurn.

Variable sep : ascii.
Variable minimatch : string -> string -> MinimatchOptions -> bool.
Variable path_join : list string -> string.
Variable path_relative : string -> string -> string.
Variable sha256_hex : string -> string.

(** One turn of the loop: the map it goes on with, or the error of the
    scan of a subdirectory. *)
Definition turn (this : FileSynchronizer) (dir : string) (entry : Dirent)
    (fileHashes : JsMap.t) : Result JsMap.t :=
  scanEntries sep minimatch path_join path_relative sha256_hex
              this dir [entry] fileHashes.

End ScanTurn.

Section Reaches.

Variable sep : ascii.
Variable minimatch : string -> string -> MinimatchOptions -> bool.
Variable path_join : list string -> string.
Variable path_relative : string -> string -> string.
Variable sha256_hex : string -> string.

(** [reaches this dir node key hash]: the scan of [node], which is at
    [dir], comes to a regular file whose relative path is [key] and whose
    [hashFile] gives [hash], through directories and past the tests of
    [shouldIgnore] that the scan makes on the way. *)
Inductive reaches (this : FileSynchronizer)
  : string -> FsTree -> string -> string -> Prop :=
| reaches_file (dir : string) (entries : list Dirent) (name : string)
    (direntIsDirectory : bool) (restat : Result StatKind)
    (content : Result string) (hash : string) :
    In (name, direntIsDirectory, Ok (RegularFile restat content)) entries ->
    shouldIgnore sep minimatch this
      (path_relative (rootDir this) (path_join [dir; name]))
      direntIsDirectory = false ->
    shouldIgnore sep minimatch this
      (path_relative (rootDir this) (path_join [dir; name])) false = false ->
    hashFile sha256_hex (path_join [dir; name]) restat content = Ok hash ->
    reaches this dir (Directory (Ok entries))
            (path_relative (rootDir this) (path_join [dir; name])) hash
| reaches_directory (dir : string) (entries : list Dirent) (name : string)
    (direntIsDirectory : bool)
    (listing : Result (list Dirent)) (key hash : string) :
    In (name, direntIsDirectory, Ok (Directory listing)) entries ->
    shouldIgnore sep minimatch this
      (path_relative (rootDir this) (path_join [dir; name]))
      direntIsDirectory = false ->
    shouldIgnore sep minimatch this
      (path_relative (rootDir this) (path_join [dir; name])) true = false ->
    reaches this (path_join [dir; name]) (Directory listing) key hash ->
    reaches this dir (Directory (Ok entries)) key hash.

(** An entry that the loop of [generateFileHashes] passes over: it is
    ignored, or its [fs.stat] fails, or it is neither a directory nor a
    regular file, or it is a regular file that [hashFile] fails on. *)
Definition passedOver (this : FileSynchronizer) (dir : string)
    (entry : Dirent) : Prop :=
  let '(name, direntIsDirectory, stat) := entry in
  let fullPath := path_join [dir; name] in
  let relativePath := path_relative (rootDir this) fullPath in
  shouldIgnore sep minimatch this relativePath direntIsDirectory = true
  \/ (exists e, stat = Throw e)
  \/ stat = Ok Special
  \/ (exists restat content e,
        stat = Ok (RegularFile restat content)
        /\ hashFile sha256_hex fullPath restat content = Throw e).

End Reaches.

(** ** Loading the snapshot *)

(** [fs.readFile(path)] of a snapshot file; [readFault] is the failure
    the platform answers the read with, if any.  The files of the model
    hold parsed documents: a file that [JSON.parse] rejects is outside
    it. *)
Definition readSnapshot (readFault : option FsError) (path : string)
  : M FileSystem SnapshotDoc :=
  fun fs =>
    match readFault with
    | Some e => (Throw e, fs)
    | None =>
        match find (fun f => (fst f =? path)%string) (files fs) with
        | Some f => (Ok (snd f), fs)
        | None =>
            (Throw (mkFsError "ENOENT" "no such file or directory"), fs)
        end
    end.

(** The pairs of a document whose hashes are all strings. *)
Fixpoint definedPairs (pairs : list (string * option string))
  : option (list (string * string)) :=
  match pairs with
  | [] => Some []
  | (key, Some value) :: rest =>
      option_map (cons (key, value)) (definedPairs rest)
  | (_, None) :: _ => None
  end.

Section Initialize.

Variable sep : ascii.
Variable minimatch : string -> string -> MinimatchOptions -> bool.
Variable path_join : list string -> string.
Variable path_relative : string -> string -> string.
Variable sha256_hex : string -> string.
Variable path_dirname : string -> string.
Variable digest : string -> string.

(** [checkForChanges()] with its scan of the tree [tree] at the root. *)
Definition checkForChangesOn (tree : FsTree) : Sync Changes :=
  fun w =>
    match generateFileHashes sep minimatch path_join path_relative
                             sha256_hex (fst w) (rootDir (fst w)) tree with
    | Ok newFileHashes => checkForChanges path_dirname digest newFileHashes w
    | Throw e => (Throw e, w)
    end.

(** [loadSnapshot()].  [None]: the document read holds a hash that is
    not a string, which the maps of the model cannot hold.  The tree of
    the document is taken as [MerkleDAG.deserialize] of what
    [serialize] gave. *)
Definition loadSnapshot (tree : FsTree) (readFault : option FsError)
    (w : World) : option (Result unit * World) :=
  let this := fst w in
  match readSnapshot readFault (snapshotPath this) (snd w) with
  | (Ok obj, fs) =>
      match definedPairs (doc_fileHashes obj) with
      | None => None
      | Some pairs =>
          Some (Ok tt,
                (mkSync (mapSetAll JsMap.empty pairs) (doc_merkleDAG obj)
                        (rootDir this) (snapshotPath this)
                        (ignorePatterns this),
                 fs))
      end
  | (Throw error, fs) =>
      if (code error =? "ENOENT")%string then
        match generateFileHashes sep minimatch path_join path_relative
                                 sha256_hex this (rootDir this) tree with
        | Ok hashes =>
            Some (saveSnapshot path_dirname
                    (mkSync hashes (buildMerkleDAG digest hashes)
                            (rootDir this) (snapshotPath this)
                            (ignorePatterns this),
                     fs))
        | Throw e => Some (Throw e, (this, fs))
        end
      else Some (Throw error, (this, fs))
  end.

(** [initialize()] *)
Definition initialize (tree : FsTree) (readFault : option FsError)
    (w : World) : option (Result unit * World) :=
  match loadSnapshot tree readFault w with
  | None => None
  | Some (Throw e, w') => Some (Throw e, w')
  | Some (Ok _, w') =>
      Some (Ok tt,
            (mkSync (fileHashes (fst w'))
                    (buildMerkleDAG digest (fileHashes (fst w')))
                    (rootDir (fst w')) (snapshotPath (fst w'))
                    (ignorePatterns (fst w')),
             snd w'))
  end.

End Initialize.

(** The map [{a:1, b:2}], filled in that order. *)
Definition sortedState : JsMap.t :=
  JsMap.mk [("a", "1"); ("b", "2")] eq_refl.

(** The guard of [checkForChanges]: the comparison of the held tree with
    the tree of the scan shows some difference. *)
Definition gateOpen (digest : string -> string) (this : FileSynchronizer)
    (newFileHashes : JsMap.t) : bool :=
  nonEmpty (added (MerkleDAG.compare (merkleDAG this)
                     (buildMerkleDAG digest newFileHashes)))
  || nonEmpty (removed (MerkleDAG.compare (merkleDAG this)
                          (buildMerkleDAG digest newFileHashes)))
  || nonEmpty (modified (MerkleDAG.compare (merkleDAG this)
                           (buildMerkleDAG digest newFileHashes))).

(** The object once it holds the scan [newFileHashes] and its tree. *)
Definition holding (digest : string -> string) (this : FileSynchronizer)
    (newFileHashes : JsMap.t) : FileSynchronizer :=
  mkSync newFileHashes (buildMerkleDAG digest newFileHashes) (rootDir this)
         (snapshotPath this) (ignorePatterns this).

(** The document that [saveSnapshot] writes for an object. *)
Definition snapshotOf (this : FileSynchronizer) : SnapshotDoc :=
  mkDoc (map (fun key => (key, JsMap.get (fileHashes this) key))
             (JsMap.keys (fileHashes this)))
        (merkleDAG this).

(** The snapshot file at [path], if there is one. *)
Definition fileAt (fs : FileSystem) (path : string) : option SnapshotDoc :=
  option_map snd (find (fun f => (fst f =? path)%string) (files fs)).

(** The held tree is the tree of the held map. *)
Definition treeMatches (digest : string -> string) (this : FileSynchronizer)
  : Prop :=
  merkleDAG this = buildMerkleDAG digest (fileHashes this).

(** A slash or a backslash. *)
Definition isAnySlash (a : ascii) : bool :=
  (a =? "/")%char || (a =? "\")%char.

(** ** A sample repository *)

(** What is left of [s] after the prefix [p], when [s] starts with it. *)
Fixpoint stripPrefix (p s : string) : option string :=
  match p with
  | EmptyString => Some s
  | String a p' =>
      match s with
      | String b s' => if (a =? b)%char then stripPrefix p' s' else None
      | EmptyString => None
      end
  end.

(** [path.relative(from, to)] for a path [to] below [from], the
    separator being the slash. *)
Definition relativeSlash (from to : string) : string :=
  match stripPrefix (from +s+ "/") to with
  | Some rest => rest
  | None => to
  end.

(** A fresh synchronizer over [/repo] that ignores [node_modules/]. *)
Definition sampleSynchronizer : FileSynchronizer :=
  mkSync JsMap.empty MerkleDAG.empty "/repo"
         "/home/.context/merkle/0.json" ["node_modules/"].

Definition plainFile (text : string) : Result FsTree :=
  Ok (RegularFile (Ok StatFile) (Ok text)).

(** The entries of [/repo]: a file, the hidden directory [.git], a
    source directory, an ignored directory, an entry whose [fs.stat]
    fails, a socket and a file that cannot be read. *)
Definition sampleBefore : list Dirent :=
  [("a.txt", false, plainFile "A")].

Definition gitEntry : Dirent :=
  (".git", true, Ok (Directory (Ok [("config", false, plainFile "G")]))).

Definition sampleAfter : list Dirent :=
  [("src", true, Ok (Directory (Ok [("main.ts", false, plainFile "M")])));
   ("node_modules", true,
    Ok (Directory (Ok [("x.js", false, plainFile "X")])));
   ("gone", false, Throw (mkFsError "ENOENT" "no such file or directory"));
   ("sock", false, Ok Special);
   ("locked.txt", false,
    Ok (RegularFile (Ok StatFile)
                    (Throw (mkFsError "EACCES" "permission denied"))))].

Definition sampleTree : FsTree :=
  Directory (Ok (sampleBefore ++ gitEntry :: sampleAfter)).

(** What the scan of [sampleTree] returns when a text is its own hash. *)
Definition sampleHashes : JsMap.t :=
  JsMap.mk [("a.txt", "A"); ("src/main.ts", "M")] eq_refl.

(** A synchronizer that holds [{a:1, b:2}] and its tree. *)
Definition readySorted : FileSynchronizer :=
  mkSync sortedState (buildMerkleDAG (fun s => s) sortedState) "/repo"
         "/home/.context/merkle/0.json" [].

(** A file system on which writing any file is refused. *)
Definition readOnlyDisk : FileSystem :=
  mkFs [] []
       (fun call _ =>
          match call with
          | WriteFile => Some (mkFsError "EROFS" "read-only file system")
          | _ => None
          end).

(** A file system that holds the snapshot of [readyA]. *)
Definition savedDisk : FileSystem :=
  mkFs [("/home/.context/merkle/0.json", snapshotOf readyA)]
       ["/home/.context/merkle"] (fun _ _ => None).

(** A file system that holds a snapshot of [/repo] where
    [getSnapshotPath] puts it, the home directory being [/home/u]. *)
Definition homeDisk : FileSystem :=
  mkFs [(getSnapshotPath "/home/u" joinSlash (fun s => s) (fun s => s)
                         "/repo",
         snapshotOf readyA)]
       [] (fun _ _ => None).

(** [path.dirname(p)] for a path with the slash as separator: what
    stands before its last slash. *)
Fixpoint dirnameSlash (p : string) : string :=
  match p with
  | EmptyString => EmptyString
  | String a rest =>
      if JsString.includes rest "/" then String a (dirnameSlash rest)
      else EmptyString
  end.

(** The file system after a first [initialize] of [sampleSynchronizer]
    on [sampleTree] from an empty disk. *)
Definition scannedDisk : FileSystem :=
  mkFs [("/home/.context/merkle/0.json",
         snapshotOf (holding (fun s => s) sampleSynchronizer sampleHashes))]
       ["/home/.context/merkle"] (fun _ _ => None).

(** What the scan of [sampleTree] returns once [src/] is ignored too. *)
Definition narrowHashes : JsMap.t := JsMap.mk [("a.txt", "A")] eq_refl.

(** ** Entry names *)



(** ** A root that holds the snapshot directory

    The directory [.context] of the home directory [/home/u] taken as
    the root: the snapshot of the root is then a file below the root,
    at [merkle/0.json] when the MD5 digest of the root is [0]. *)







(** * Properties *)

(** ** Lists and maps *)

Lemma existsb_eqb_In (k : string) (l : list string) :
  existsb (String.eqb k) l = true <-> In k l.
Proof.
  rewrite existsb_exists. split.
  - intros [x [Hin Hx]]. apply String.eqb_eq in Hx. now subst.
  - intros Hin. exists k. split; [assumption | apply String.eqb_refl].
Qed.

Lemma uniqueb_NoDup (ks : list string) :
  JsMap.uniqueb ks = true <-> NoDup ks.
Proof.
  induction ks as [| k r IH]; simpl.
  - split; [constructor | reflexivity].
  - rewrite andb_true_iff, negb_true_iff, IH. split.
    + intros [Hk Hr]. constructor; [| assumption].
      intro Hin. apply existsb_eqb_In in Hin. congruence.
    + intros H. inversion H as [| ? ? Hk Hr]; subst. split; [| assumption].
      destruct (existsb (String.eqb k) r) eqn:E; [| reflexivity].
      apply existsb_eqb_In in E. contradiction.
Qed.

Lemma keys_NoDup (m : JsMap.t) : NoDup (JsMap.keys m).
Proof. apply uniqueb_NoDup, JsMap.unique. Qed.

Lemma has_In (m : JsMap.t) (k : string) :
  JsMap.has m k = true <-> In k (JsMap.keys m).
Proof.
  unfold JsMap.has, JsMap.keys. rewrite existsb_exists, in_map_iff.
  unfold JsMap.keyIs. split; intros [e [H1 H2]].
  - apply String.eqb_eq in H2. now exists e.
  - exists e. split; [assumption |]. apply String.eqb_eq. assumption.
Qed.

Lemma has_false_In (m : JsMap.t) (k : string) :
  JsMap.has m k = false <-> ~ In k (JsMap.keys m).
Proof.
  rewrite <- has_In. destruct (JsMap.has m k); split; congruence.
Qed.

Lemma find_key_In (l : list (string * string)) (k v : string) :
  NoDup (map fst l) ->
  (option_map snd (find (JsMap.keyIs k) l) = Some v <-> In (k, v) l).
Proof.
  unfold JsMap.keyIs.
  induction l as [| [k0 v0] r IH]; simpl; intros Hnd.
  - split; [discriminate | contradiction].
  - inversion Hnd as [| ? ? Hk Hr]; subst.
    destruct (String.eqb_spec k0 k) as [-> | Hne]; simpl.
    + split.
      * intros H. injection H as <-. now left.
      * intros [H | H]; [congruence |].
        exfalso. apply Hk. apply in_map_iff. now exists (k, v).
    + rewrite (IH Hr). split; [now right |].
      intros [H | H]; [congruence | assumption].
Qed.

Lemma get_In (m : JsMap.t) (k v : string) :
  JsMap.get m k = Some v <-> In (k, v) (JsMap.entries m).
Proof. apply find_key_In, keys_NoDup. Qed.

Lemma get_has (m : JsMap.t) (k : string) :
  JsMap.has m k = true <-> exists v, JsMap.get m k = Some v.
Proof.
  rewrite has_In. unfold JsMap.keys. rewrite in_map_iff. split.
  - intros [[k' v] [Hk Hin]]. simpl in Hk. subst. exists v.
    now apply get_In.
  - intros [v Hv]. exists (k, v). split; [reflexivity | now apply get_In].
Qed.

Lemma NoDup_filter_str (f : string -> bool) (l : list string) :
  NoDup l -> NoDup (filter f l).
Proof.
  induction 1 as [| x l Hx Hl IH]; simpl; [constructor |].
  destruct (f x); [| assumption].
  constructor; [| assumption].
  intro Hin. apply filter_In in Hin. tauto.
Qed.

Lemma NoDup_keys_filter (f : string * string -> bool)
    (l : list (string * string)) :
  NoDup (map fst l) -> NoDup (map fst (filter f l)).
Proof.
  induction l as [| e r IH]; simpl; intros Hnd; [constructor |].
  inversion Hnd as [| ? ? Hk Hr]; subst.
  destruct (f e); simpl; [| now apply IH].
  constructor; [| now apply IH].
  intro Hin. apply Hk. apply in_map_iff in Hin.
  destruct Hin as [e' [He' Hin]]. apply filter_In in Hin.
  apply in_map_iff. exists e'. tauto.
Qed.

(** ** [compareStates] as three filters *)

Lemma push_loop (f : string -> bool) (l acc : list string) :
  fold_left (fun acc x => if f x then acc ++ [x] else acc) l acc
  = acc ++ filter f l.
Proof.
  revert acc. induction l as [| x l IH]; intros acc; simpl.
  - now rewrite app_nil_r.
  - rewrite IH. destruct (f x); [| reflexivity].
    now rewrite <- app_assoc.
Qed.

Lemma entries_loop (oldHashes : JsMap.t) (l : list (string * string))
    (a m : list string) :
  fold_left
    (fun '(added, modified) '(file, hash) =>
       if negb (JsMap.has oldHashes file) then (added ++ [file], modified)
       else if differsFrom (JsMap.get oldHashes file) hash
            then (added, modified ++ [file])
            else (added, modified))
    l (a, m)
  = (a ++ filter (isAdded oldHashes) (map fst l),
     m ++ map fst (filter (isModified oldHashes) l)).
Proof.
  revert a m. induction l as [| [file hash] l IH]; intros a m; simpl.
  - now rewrite !app_nil_r.
  - cbn [fold_left map filter fst].
    assert (Ha : isAdded oldHashes file = negb (JsMap.has oldHashes file))
      by reflexivity.
    assert (Hm : isModified oldHashes (file, hash)
                 = JsMap.has oldHashes file
                   && differsFrom (JsMap.get oldHashes file) hash)
      by reflexivity.
    rewrite Ha, Hm.
    destruct (JsMap.has oldHashes file); cbn [negb andb].
    + destruct (differsFrom (JsMap.get oldHashes file) hash);
        cbn [map fst]; rewrite IH; [| reflexivity].
      now rewrite <- app_assoc.
    + rewrite IH. now rewrite <- app_assoc.
Qed.

Lemma compareStates_filters (oldHashes newHashes : JsMap.t) :
  compareStates oldHashes newHashes
  = mkChanges
      (filter (isAdded oldHashes) (JsMap.keys newHashes))
      (filter (isAdded newHashes) (JsMap.keys oldHashes))
      (map fst (filter (isModified oldHashes) (JsMap.entries newHashes))).
Proof.
  unfold compareStates. rewrite entries_loop.
  change (fun removed file =>
            if negb (JsMap.has newHashes file) then removed ++ [file]
            else removed)
    with (fun removed file =>
            if isAdded newHashes file then removed ++ [file] else removed).
  rewrite push_loop. reflexivity.
Qed.

Lemma added_iff (oldHashes newHashes : JsMap.t) (p : string) :
  In p (added (compareStates oldHashes newHashes))
  <-> JsMap.has newHashes p = true /\ JsMap.has oldHashes p = false.
Proof.
  rewrite compareStates_filters. simpl. rewrite filter_In, has_In.
  unfold isAdded. rewrite negb_true_iff. reflexivity.
Qed.

Lemma removed_iff (oldHashes newHashes : JsMap.t) (p : string) :
  In p (removed (compareStates oldHashes newHashes))
  <-> JsMap.has oldHashes p = true /\ JsMap.has newHashes p = false.
Proof.
  rewrite compareStates_filters. simpl. rewrite filter_In, has_In.
  unfold isAdded. rewrite negb_true_iff. reflexivity.
Qed.

Lemma differsFrom_iff (o : option string) (h : string) :
  differsFrom o h = true <-> o <> Some h.
Proof.
  destruct o as [h' |]; simpl.
  - rewrite negb_true_iff, String.eqb_neq. split; congruence.
  - split; [discriminate | reflexivity].
Qed.

Lemma modified_iff (oldHashes newHashes : JsMap.t) (p : string) :
  In p (modified (compareStates oldHashes newHashes))
  <-> exists h h', JsMap.get newHashes p = Some h
                   /\ JsMap.get oldHashes p = Some h' /\ h <> h'.
Proof.
  rewrite compareStates_filters. simpl. rewrite in_map_iff. split.
  - intros [[file hash] [Hp Hin]]. simpl in Hp. subst file.
    apply filter_In in Hin. destruct Hin as [Hin Hmod].
    unfold isModified in Hmod. simpl in Hmod.
    apply andb_true_iff in Hmod. destruct Hmod as [Hhas Hdiff].
    apply get_has in Hhas. destruct Hhas as [h' Hh'].
    exists hash, h'. split; [now apply get_In |]. split; [assumption |].
    apply differsFrom_iff in Hdiff. congruence.
  - intros [h [h' [Hn [Ho Hne]]]]. exists (p, h). split; [reflexivity |].
    apply filter_In. split; [now apply get_In |].
    unfold isModified. simpl. apply andb_true_iff. split.
    + apply get_has. now exists h'.
    + apply differsFrom_iff. congruence.
Qed.

(** C4: [compareStates] returns in [added] exactly the paths of the new
    mapping that the old one lacks, in [removed] exactly the paths of the
    old mapping that the new one lacks, and in [modified] exactly the
    paths of both whose hashes differ; old [{a:h1, b:h2}] against new
    [{b:h2, c:h3}] gives added [c], removed [a], modified nothing. *)
Theorem compareStates_exact :
  (forall (oldHashes newHashes : JsMap.t) (p : string),
      let d := compareStates oldHashes newHashes in
      (In p (added d)
       <-> JsMap.has newHashes p = true /\ JsMap.has oldHashes p = false)
      /\ (In p (removed d)
          <-> JsMap.has oldHashes p = true /\ JsMap.has newHashes p = false)
      /\ (In p (modified d)
          <-> exists h h', JsMap.get newHashes p = Some h
                           /\ JsMap.get oldHashes p = Some h' /\ h <> h'))
  /\ compareStates exampleOld exampleNew = mkChanges ["c"] ["a"] [].
Proof.
  split; [| reflexivity].
  intros oldHashes newHashes p d. subst d.
  split; [apply added_iff |]. split; [apply removed_iff | apply modified_iff].
Qed.

(** The three lists of [compareStates] have no duplicates and are
    pairwise disjoint. *)
Lemma compareStates_separate (oldHashes newHashes : JsMap.t) :
  separateLists (compareStates oldHashes newHashes).
Proof.
  unfold separateLists. repeat split.
  - rewrite compareStates_filters. simpl.
    apply NoDup_filter_str, keys_NoDup.
  - rewrite compareStates_filters. simpl.
    apply NoDup_filter_str, keys_NoDup.
  - rewrite compareStates_filters. simpl.
    apply NoDup_keys_filter, keys_NoDup.
  - intros p [Ha Hr]. apply added_iff in Ha. apply removed_iff in Hr.
    destruct Ha as [Ha _], Hr as [_ Hr]. congruence.
  - intros p [Ha Hm]. apply added_iff in Ha. apply modified_iff in Hm.
    destruct Ha as [_ Ha], Hm as [h [h' [_ [Ho _]]]].
    assert (JsMap.has oldHashes p = true) by (apply get_has; now exists h').
    congruence.
  - intros p [Hr Hm]. apply removed_iff in Hr. apply modified_iff in Hm.
    destruct Hr as [_ Hr], Hm as [h [h' [Hn _]]].
    assert (JsMap.has newHashes p = true) by (apply get_has; now exists h).
    congruence.
Qed.

(** ** The fingerprint tree built from a mapping *)

Lemma append_empty_r (s : string) : s +s+ "" = s.
Proof. induction s as [| a s IH]; simpl; [reflexivity | now rewrite IH]. Qed.

Lemma append_assoc_s (a b c : string) : (a +s+ b) +s+ c = a +s+ (b +s+ c).
Proof. induction a as [| x a IH]; simpl; [reflexivity | now rewrite IH]. Qed.

Lemma length_append (a b : string) :
  String.length (a +s+ b) = String.length a + String.length b.
Proof. induction a as [| x a IH]; simpl; [reflexivity | now rewrite IH]. Qed.

Lemma append_inj_same_length (a b x y : string) :
  String.length a = String.length b ->
  a +s+ x = b +s+ y -> a = b /\ x = y.
Proof.
  revert b. induction a as [| c a IH]; intros [| d b] Hlen Heq;
    simpl in *; try discriminate.
  - now split.
  - injection Heq as Hc Hrest. injection Hlen as Hlen.
    destruct (IH b Hlen Hrest) as [-> ->]. now subst.
Qed.

Lemma concat_loop (f : string -> string) (l : list string) (acc : string) :
  fold_left (fun acc key => acc +s+ f key) l acc
  = acc +s+ joinAll (map f l).
Proof.
  revert acc. induction l as [| k l IH]; intros acc; simpl.
  - now rewrite append_empty_r.
  - rewrite IH. now rewrite append_assoc_s.
Qed.

Lemma hashAt_entries (m : JsMap.t) :
  map (hashAt m) (JsMap.keys m) = JsMap.values m.
Proof.
  unfold JsMap.keys, JsMap.values. rewrite map_map.
  apply map_ext_in. intros [k v] Hin. unfold hashAt. simpl.
  apply get_In in Hin. now rewrite Hin.
Qed.

Lemma valuesString_values (m : JsMap.t) :
  valuesString m = joinAll (JsMap.values m).
Proof.
  unfold valuesString.
  rewrite (concat_loop (hashAt m)). simpl. now rewrite hashAt_entries.
Qed.

Section FingerprintFacts.

Variable digest : string -> string.

Lemma addLeaves (m : JsMap.t) (r : string) (l : list string)
    (dag : MerkleDAG.t) :
  fold_left
    (fun dag path =>
       snd (MerkleDAG.addNode digest dag (fileData m path) (Some r)))
    l dag
  = MerkleDAG.mkDAG (MerkleDAG.nodes dag ++ map (leafNode digest m r) l)
                    (MerkleDAG.rootIds dag).
Proof.
  revert dag. induction l as [| path l IH]; intros dag; simpl.
  - rewrite app_nil_r. now destruct dag.
  - rewrite IH. simpl. now rewrite <- app_assoc.
Qed.

Lemma buildMerkleDAG_nodes (m : JsMap.t) :
  buildMerkleDAG digest m
  = MerkleDAG.mkDAG
      (MerkleDAG.mkNode (digest (rootNodeData m)) (rootNodeData m) None
         :: map (leafNode digest m (digest (rootNodeData m)))
                (sortedPaths m))
      [digest (rootNodeData m)].
Proof.
  unfold buildMerkleDAG.
  change (MerkleDAG.addNode digest MerkleDAG.empty (rootNodeData m) None)
    with (digest (rootNodeData m),
          MerkleDAG.mkDAG
            [MerkleDAG.mkNode (digest (rootNodeData m)) (rootNodeData m)
                              None]
            [digest (rootNodeData m)]).
  cbv iota beta. now rewrite addLeaves.
Qed.

Lemma rootContent_build (m : JsMap.t) :
  rootContent (buildMerkleDAG digest m) = Some (rootNodeData m).
Proof.
  rewrite buildMerkleDAG_nodes. unfold rootContent, MerkleDAG.getNode.
  simpl. now rewrite String.eqb_refl.
Qed.

End FingerprintFacts.

Lemma sortedPaths_perm (m : JsMap.t) :
  Permutation (JsMap.keys m) (sortedPaths m).
Proof. apply StringSort.Permuted_sort. Qed.

Lemma sortedPaths_sorted (m : JsMap.t) :
  Sorted (fun a b => String.leb a b = true) (sortedPaths m).
Proof. apply (StringSort.Sorted_sort (JsMap.keys m)). Qed.

(** C1, as the code has it: [buildMerkleDAG] makes one root node, whose
    content is the text [root:] followed by the concatenation of the
    hashes of the mapping, each path's hash once (in sorted-path order
    when the mapping enumerates its paths in that order), and after it one
    leaf per path, in sorted-path order, a child of the root, whose
    content is the path, a colon and the hash. *)
Theorem buildMerkleDAG_shape (digest : string -> string) (m : JsMap.t) :
  exists root leaves hashes,
    MerkleDAG.nodes (buildMerkleDAG digest m) = root :: leaves
    /\ MerkleDAG.rootIds (buildMerkleDAG digest m) = [MerkleDAG.id root]
    /\ MerkleDAG.parent root = None
    /\ MerkleDAG.data root = "root:" +s+ joinAll hashes
    /\ Permutation hashes (JsMap.values m)
    /\ (JsMap.keys m = sortedPaths m
        -> hashes = map (hashAt m) (sortedPaths m))
    /\ Sorted (fun a b => String.leb a b = true) (sortedPaths m)
    /\ Permutation (JsMap.keys m) (sortedPaths m)
    /\ Forall2
         (fun leaf path =>
            exists hash,
              JsMap.get m path = Some hash
              /\ MerkleDAG.data leaf = path +s+ ":" +s+ hash
              /\ MerkleDAG.parent leaf = Some (MerkleDAG.id root))
         leaves (sortedPaths m).
Proof.
  rewrite buildMerkleDAG_nodes. simpl.
  eexists. eexists. exists (JsMap.values m).
  split; [reflexivity |]. simpl.
  split; [reflexivity |]. split; [reflexivity |].
  split; [unfold rootNodeData; now rewrite valuesString_values |].
  split; [apply Permutation_refl |].
  split; [intros Hk; rewrite <- Hk; symmetry; apply hashAt_entries |].
  split; [apply sortedPaths_sorted |].
  split; [apply sortedPaths_perm |].
  assert (Hin : forall p, In p (sortedPaths m) -> In p (JsMap.keys m)).
  { intros p Hp. apply Permutation_in with (l := sortedPaths m);
      [apply Permutation_sym, sortedPaths_perm | assumption]. }
  induction (sortedPaths m) as [| path l IH]; cbn [map]; constructor.
  - assert (Hhas : JsMap.has m path = true)
      by (apply has_In, Hin; now left).
    apply get_has in Hhas. destruct Hhas as [hash Hhash].
    exists hash. split; [assumption |]. split; [| reflexivity].
    unfold leafNode, fileData. cbn [MerkleDAG.data]. now rewrite Hhash.
  - apply IH. intros p Hp. apply Hin. now right.
Qed.

(** C1 as stated fails at [{b:2, a:1}]: the root content is [root:21],
    and the concatenation of the hashes in sorted-path order is [12]. *)
Lemma buildMerkleDAG_root_not_sorted_concat :
  rootContent (buildMerkleDAG (fun s => s) unsortedState) = Some "root:21"
  /\ joinAll (map (hashAt unsortedState) (sortedPaths unsortedState)) = "12"
  /\ rootContent (buildMerkleDAG (fun s => s) unsortedState)
     <> Some (joinAll (map (hashAt unsortedState)
                           (sortedPaths unsortedState))).
Proof.
  split; [reflexivity |]. split; [reflexivity |].
  vm_compute. discriminate.
Qed.

(** ** Root content against equality of mappings *)

Lemma joinAll_fixed_length (L : nat) (l1 l2 : list string) :
  0 < L ->
  (forall h, In h l1 -> String.length h = L) ->
  (forall h, In h l2 -> String.length h = L) ->
  joinAll l1 = joinAll l2 -> l1 = l2.
Proof.
  intros HL. revert l2.
  induction l1 as [| a l1 IH]; intros [| b l2] H1 H2 Heq; simpl in *.
  - reflexivity.
  - exfalso. assert (Hb : String.length b = L) by (apply H2; now left).
    apply (f_equal String.length) in Heq. rewrite length_append in Heq.
    simpl in Heq. lia.
  - exfalso. assert (Ha : String.length a = L) by (apply H1; now left).
    apply (f_equal String.length) in Heq. rewrite length_append in Heq.
    simpl in Heq. lia.
  - assert (Ha : String.length a = L) by (apply H1; now left).
    assert (Hb : String.length b = L) by (apply H2; now left).
    destruct (append_inj_same_length a b _ _ (eq_trans Ha (eq_sym Hb)) Heq)
      as [-> Hrest].
    f_equal. apply IH; auto.
Qed.

Lemma sameMapping_entries (m1 m2 : JsMap.t) :
  JsMap.sameMapping m1 m2 -> JsMap.keys m1 = JsMap.keys m2 ->
  JsMap.values m1 = JsMap.values m2.
Proof.
  intros Hsame Hkeys. rewrite <- !hashAt_entries, Hkeys.
  apply map_ext. intros k. unfold hashAt. now rewrite Hsame.
Qed.

(** C2, as the code has it: two mappings that are equal and enumerate
    their paths in the same order give root nodes of equal content; and
    when all hashes have one positive length, root nodes of equal content
    mean that the two mappings hold the same hashes, each as often (so
    as many paths), though not that the paths are the same. *)
Theorem rootContent_equal (digest : string -> string) (m1 m2 : JsMap.t) :
  (JsMap.sameMapping m1 m2 -> JsMap.keys m1 = JsMap.keys m2 ->
   rootContent (buildMerkleDAG digest m1)
   = rootContent (buildMerkleDAG digest m2))
  /\ (forall L : nat,
        0 < L ->
        (forall h, In h (JsMap.values m1 ++ JsMap.values m2) ->
                   String.length h = L) ->
        rootContent (buildMerkleDAG digest m1)
        = rootContent (buildMerkleDAG digest m2) ->
        Permutation (JsMap.values m1) (JsMap.values m2)
        /\ JsMap.size m1 = JsMap.size m2).
Proof.
  rewrite !rootContent_build. unfold rootNodeData.
  rewrite !valuesString_values. split.
  - intros Hsame Hkeys. now rewrite (sameMapping_entries m1 m2).
  - intros L HL Hlen Heq. injection Heq as Heq.
    assert (Hv : JsMap.values m1 = JsMap.values m2).
    { apply (joinAll_fixed_length L); [assumption | | | assumption];
        intros h Hh; apply Hlen, in_or_app; [now left | now right]. }
    split; [rewrite Hv; apply Permutation_refl |].
    unfold JsMap.size. apply (f_equal (@List.length string)) in Hv.
    unfold JsMap.values in Hv. now rewrite !length_map in Hv.
Qed.

(** The mapping [{a:h}] against itself, and [{a:h}] against [{b:h}],
    whose hashes have length one. *)
Lemma rootContent_equal_witness :
  rootContent (buildMerkleDAG (fun s => s) stateA)
  = rootContent (buildMerkleDAG (fun s => s) stateA)
  /\ Permutation (JsMap.values stateA) (JsMap.values stateB)
  /\ JsMap.size stateA = JsMap.size stateB.
Proof.
  split.
  - apply (proj1 (rootContent_equal (fun s => s) stateA stateA)).
    + intros k. reflexivity.
    + reflexivity.
  - apply (proj2 (rootContent_equal (fun s => s) stateA stateB) 1).
    + apply Nat.lt_0_1.
    + simpl. intros h [<- | [<- | []]]; reflexivity.
    + reflexivity.
Defined.

(** C2 as stated fails at [{a:h}] and [{b:h}]: both root nodes have the
    content [root:h], and the mappings differ at the path [a]. *)
Lemma rootContent_equal_not_iff :
  rootContent (buildMerkleDAG (fun s => s) stateA) = Some "root:h"
  /\ rootContent (buildMerkleDAG (fun s => s) stateB) = Some "root:h"
  /\ JsMap.get stateA "a" = Some "h"
  /\ JsMap.get stateB "a" = None
  /\ ~ (rootContent (buildMerkleDAG (fun s => s) stateA)
        = rootContent (buildMerkleDAG (fun s => s) stateB)
        <-> JsMap.sameMapping stateA stateB).
Proof.
  repeat (split; [reflexivity |]).
  intros [H _]. specialize (H eq_refl "a"). discriminate.
Qed.

(** ** [checkForChanges] *)

Lemma filter_none {A : Type} (f : A -> bool) (l : list A) :
  (forall x, In x l -> f x = false) -> filter f l = [].
Proof.
  induction l as [| x l IH]; simpl; intros H; [reflexivity |].
  rewrite (H x (or_introl eq_refl)). apply IH. intros y Hy. apply H.
  now right.
Qed.

(** A tree compared with itself shows no change. *)
Lemma compare_same (dag : MerkleDAG.t) :
  MerkleDAG.compare dag dag = noChanges.
Proof.
  unfold MerkleDAG.compare, noChanges.
  assert (Hhas : forall i, In i (MerkleDAG.nodeIds dag) ->
                           negb (MerkleDAG.hasNode dag i) = false).
  { intros i Hi. unfold MerkleDAG.hasNode.
    apply negb_false_iff, existsb_eqb_In. assumption. }
  rewrite (filter_none _ _ Hhas). f_equal.
  apply filter_none. intros i _.
  destruct (MerkleDAG.getNode dag i) as [n |]; [| reflexivity].
  now rewrite String.eqb_refl.
Qed.

(** Opens the steps of a method down to the calls on the disk. *)
Ltac open_sync :=
  unfold checkForChanges, saveSnapshot, setThis, getThis, onDisk, bind, ret;
  cbn [fst snd].

(** Splits on the outcomes of the two disk calls of [saveSnapshot]. *)
Ltac saveSnapshot_outcomes fs :=
  let fs1 := fresh "fs1" in
  let fs2 := fresh "fs2" in
  let e := fresh "e" in
  cbn [fst snd];
  match goal with
  | |- context [mkdir ?dir fs] =>
      destruct (mkdir dir fs) as [[[] | e] fs1]; cbn [fst snd];
      [match goal with
       | |- context [writeFile ?file ?doc fs1] =>
           destruct (writeFile file doc fs1) as [[[] | e] fs2];
           cbn [fst snd]
       end |]
  end.

Section CheckForChangesFacts.

Variable path_dirname : string -> string.
Variable digest : string -> string.

(** C3: when the comparison of the held tree with the tree of the scan
    reports nothing added, removed or modified, [checkForChanges]
    returns the empty diff, and the object (mapping and tree) and the
    file system (no snapshot written) are as before. *)
Theorem checkForChanges_no_difference
    (newFileHashes : JsMap.t) (this : FileSynchronizer) (fs : FileSystem) :
  added (MerkleDAG.compare (merkleDAG this)
                           (buildMerkleDAG digest newFileHashes)) = [] ->
  removed (MerkleDAG.compare (merkleDAG this)
                             (buildMerkleDAG digest newFileHashes)) = [] ->
  modified (MerkleDAG.compare (merkleDAG this)
                              (buildMerkleDAG digest newFileHashes)) = [] ->
  checkForChanges path_dirname digest newFileHashes (this, fs)
  = (Ok noChanges, (this, fs)).
Proof.
  intros Ha Hr Hm. open_sync. rewrite Ha, Hr, Hm. reflexivity.
Qed.

(** A scan whose tree is the held tree passes for no change. *)
Lemma checkForChanges_same_tree
    (newFileHashes : JsMap.t) (this : FileSynchronizer) (fs : FileSystem) :
  merkleDAG this = buildMerkleDAG digest newFileHashes ->
  checkForChanges path_dirname digest newFileHashes (this, fs)
  = (Ok noChanges, (this, fs)).
Proof.
  intros Hdag. open_sync. rewrite Hdag, compare_same. reflexivity.
Qed.



(** What a call returns is the empty diff or the exact diff of the held
    mapping against the scan. *)
Lemma checkForChanges_returns
    (newFileHashes : JsMap.t) (w : World) (d : Changes) :
  fst (checkForChanges path_dirname digest newFileHashes w) = Ok d ->
  d = noChanges \/ d = compareStates (fileHashes (fst w)) newFileHashes.
Proof.
  destruct w as [this fs]. open_sync.
  destruct (nonEmpty _ || nonEmpty _ || nonEmpty _).
  - saveSnapshot_outcomes fs; try discriminate.
    intros H. injection H as <-. now right.
  - intros H. injection H as <-. now left.
Qed.

(** C10: the three lists that [compareStates] returns, and so the three
    lists that [checkForChanges] returns, have no duplicates and are
    pairwise disjoint: a path occurs in at most one of them, once. *)
Theorem compareStates_disjoint :
  (forall oldHashes newHashes : JsMap.t,
      let d := compareStates oldHashes newHashes in
      NoDup (added d) /\ NoDup (removed d) /\ NoDup (modified d)
      /\ (forall p, ~ (In p (added d) /\ In p (removed d)))
      /\ (forall p, ~ (In p (added d) /\ In p (modified d)))
      /\ (forall p, ~ (In p (removed d) /\ In p (modified d))))
  /\ (forall (newFileHashes : JsMap.t) (w : World) (d : Changes),
        fst (checkForChanges path_dirname digest newFileHashes w) = Ok d ->
        separateLists d).
Proof.
  split.
  - intros oldHashes newHashes. apply compareStates_separate.
  - intros newFileHashes w d Hd.
    destruct (checkForChanges_returns newFileHashes w d Hd) as [-> | ->].
    + unfold separateLists, noChanges. cbn [added removed modified].
      repeat split; try constructor; intros p [[] _].
    + apply compareStates_separate.
Qed.

End CheckForChangesFacts.


(** A scan of [{b:h2, c:h3}] by a synchronizer that holds [{a:h1, b:h2}]
    and its tree, on an empty disk. *)
Lemma compareStates_disjoint_witness :
  separateLists (mkChanges ["c"] ["a"] []).
Proof.
  apply (proj2 (compareStates_disjoint (fun s => s) (fun s => s))
           exampleNew (readyOld, emptyDisk)).
  reflexivity.
Defined.

(** A scan equal to the held mapping [{a:h}] on an empty disk. *)
Lemma checkForChanges_no_difference_witness :
  checkForChanges (fun s => s) (fun s => s) stateA (readyA, emptyDisk)
  = (Ok noChanges, (readyA, emptyDisk)).
Proof.
  apply (checkForChanges_no_difference (fun s => s) (fun s => s)
           stateA readyA emptyDisk); reflexivity.
Defined.

(** ** [deleteSnapshot] *)

Section DeleteSnapshotFacts.

Variable homedir : string.
Variable path_join : list string -> string.
Variable path_resolve : string -> string.
Variable md5_hex : string -> string.

Lemma deleteSnapshot_unfold (codebasePath : string) (fs : FileSystem) :
  deleteSnapshot homedir path_join path_resolve md5_hex codebasePath fs
  = match unlink (getSnapshotPath homedir path_join path_resolve md5_hex
                                  codebasePath) fs with
    | (Ok a, fs') => (Ok a, fs')
    | (Throw e, fs') =>
        if (code e =? "ENOENT")%string then (Ok tt, fs')
        else (Throw e, fs')
    end.
Proof.
  unfold deleteSnapshot, getSnapshotPath, tryCatch.
  destruct (unlink _ fs) as [[a | e] fs']; [reflexivity |].
  destruct (code e =? "ENOENT")%string; reflexivity.
Qed.

(** C9: [deleteSnapshot] completes without error, and leaves the file
    system as it was, when no snapshot file exists for the root (and
    more generally whenever the removal reports ENOENT); every other
    failure of the removal is thrown to the caller as it is. *)
Theorem deleteSnapshot_missing_or_rethrow
    (codebasePath : string) (fs : FileSystem) :
  (hasFile fs (getSnapshotPath homedir path_join path_resolve md5_hex
                               codebasePath) = false ->
   failure fs Unlink (getSnapshotPath homedir path_join path_resolve
                                      md5_hex codebasePath) = None ->
   deleteSnapshot homedir path_join path_resolve md5_hex codebasePath fs
   = (Ok tt, fs))
  /\ (forall e : FsError,
        fst (unlink (getSnapshotPath homedir path_join path_resolve
                                     md5_hex codebasePath) fs) = Throw e ->
        code e = "ENOENT" ->
        fst (deleteSnapshot homedir path_join path_resolve md5_hex
                            codebasePath fs) = Ok tt)
  /\ (forall e : FsError,
        fst (unlink (getSnapshotPath homedir path_join path_resolve
                                     md5_hex codebasePath) fs) = Throw e ->
        code e <> "ENOENT" ->
        fst (deleteSnapshot homedir path_join path_resolve md5_hex
                            codebasePath fs) = Throw e).
Proof.
  rewrite deleteSnapshot_unfold.
  split; [| split].
  - intros Hfile Hfail. unfold unlink. rewrite Hfail, Hfile. reflexivity.
  - intros e He Hcode.
    destruct (unlink _ fs) as [[a | e'] fs'];
      cbn [fst] in He; [discriminate |].
    injection He as ->. apply String.eqb_eq in Hcode.
    now rewrite Hcode.
  - intros e He Hcode.
    destruct (unlink _ fs) as [[a | e'] fs'];
      cbn [fst] in He; [discriminate |].
    injection He as ->. apply String.eqb_neq in Hcode.
    now rewrite Hcode.
Qed.

End DeleteSnapshotFacts.

(** Removal of the snapshot of [/repo] on an empty disk, on a disk
    without the snapshot directory, and on a disk that refuses the
    removal. *)
Lemma deleteSnapshot_missing_or_rethrow_witness :
  deleteSnapshot "/home/u" joinSlash (fun s => s) (fun s => s) "/repo"
                 emptyDisk = (Ok tt, emptyDisk)
  /\ fst (deleteSnapshot "/home/u" joinSlash (fun s => s) (fun s => s)
                         "/repo" bareDisk) = Ok tt
  /\ fst (deleteSnapshot "/home/u" joinSlash (fun s => s) (fun s => s)
                         "/repo" lockedDisk)
     = Throw (mkFsError "EACCES" "permission denied").
Proof.
  split; [| split].
  - apply (proj1 (deleteSnapshot_missing_or_rethrow
                    "/home/u" joinSlash (fun s => s) (fun s => s)
                    "/repo" emptyDisk)); reflexivity.
  - apply (proj1 (proj2 (deleteSnapshot_missing_or_rethrow
                           "/home/u" joinSlash (fun s => s) (fun s => s)
                           "/repo" bareDisk))
             (mkFsError "ENOENT" "no such file or directory"));
      reflexivity.
  - apply (proj2 (proj2 (deleteSnapshot_missing_or_rethrow
                           "/home/u" joinSlash (fun s => s) (fun s => s)
                           "/repo" lockedDisk))
             (mkFsError "EACCES" "permission denied")).
    + reflexivity.
    + discriminate.
Defined.

(** ** Path filtering: hidden entries and inert patterns *)

Lemma startsWith_char (s : string) (c : ascii) :
  JsString.startsWith s (String c EmptyString) = true
  <-> exists rest, s = String c rest.
Proof.
  unfold JsString.startsWith. destruct s as [| a s]; simpl.
  - split; [discriminate | intros [rest H]; discriminate].
  - destruct (ascii_dec c a) as [-> | Hne].
    + split; [intros _; now exists s | intros _; now destruct s].
    + split; [discriminate |]. intros [rest H]. congruence.
Qed.

Lemma trim_keeps_bang (rest : string) :
  exists rest', JsString.trim (String "!" rest) = String "!" rest'.
Proof.
  unfold JsString.trim.
  change (JsString.dropLeading JsString.isWhiteSpace (String "!" rest))
    with (String "!" rest).
  cbn [JsString.dropTrailing].
  destruct (JsString.dropTrailing JsString.isWhiteSpace rest) as [| a t].
  - now exists EmptyString.
  - now exists (String a t).
Qed.

Section PathMatcherFacts.

Variable sep : ascii.
Variable minimatch : string -> string -> MinimatchOptions -> bool.

Lemma inert_never_matches
    (normalizedPath pathWithSlash rawPattern : string)
    (isDirectory : bool) :
  inertPattern rawPattern = true ->
  matchGitignorePattern minimatch normalizedPath pathWithSlash rawPattern
                        isDirectory = false.
Proof.
  unfold inertPattern, matchGitignorePattern. intros H.
  destruct (JsString.isEmpty rawPattern); [reflexivity |].
  destruct (JsString.startsWith rawPattern "#"); [reflexivity |].
  cbn [orb] in H |- *.
  apply startsWith_char in H. destruct H as [rest ->].
  destruct (trim_keeps_bang rest) as [rest' ->].
  cbv zeta. cbn [JsString.isEmpty].
  rewrite (proj2 (startsWith_char (String "!" rest') "!"))
    by (now exists rest').
  reflexivity.
Qed.

Lemma existsb_active (f : string -> bool) (l : list string) :
  (forall x, inertPattern x = true -> f x = false) ->
  existsb f (filter (fun x => negb (inertPattern x)) l) = existsb f l.
Proof.
  intros H. induction l as [| x l IH]; simpl; [reflexivity |].
  destruct (inertPattern x) eqn:E; simpl.
  - rewrite (H x E). exact IH.
  - now rewrite IH.
Qed.

Lemma existsb_all_inert (f : string -> bool) (l : list string) :
  (forall x, inertPattern x = true -> f x = false) ->
  forallb inertPattern l = true -> existsb f l = false.
Proof.
  intros H. induction l as [| x l IH]; simpl; [reflexivity |].
  intros Hall. apply andb_true_iff in Hall. destruct Hall as [Hx Hl].
  now rewrite (H x Hx), IH.
Qed.

(** C5: a path with a segment, between separators, that starts with a
    dot is ignored, whatever the patterns (none included) and whether
    it names a directory or not. *)
Theorem shouldIgnore_hidden
    (this : FileSynchronizer) (relativePath : string)
    (isDirectory : bool) :
  (exists part, In part (JsString.split sep relativePath)
                /\ JsString.startsWith part "." = true) ->
  shouldIgnore sep minimatch this relativePath isDirectory = true.
Proof.
  intros H. unfold shouldIgnore, hasHiddenPart.
  apply existsb_exists in H. now rewrite H.
Qed.

(** C7: a pattern that is empty or starts with [#] or [!] matches no
    path; taking such patterns out of the list changes no answer of
    [shouldIgnore]; and when the list holds only such patterns,
    [shouldIgnore] is true exactly for the paths with a hidden
    segment. *)
Theorem shouldIgnore_inert_patterns :
  (forall (normalizedPath pathWithSlash rawPattern : string)
          (isDirectory : bool),
      inertPattern rawPattern = true ->
      matchGitignorePattern minimatch normalizedPath pathWithSlash
                            rawPattern isDirectory = false)
  /\ (forall (this : FileSynchronizer) (relativePath : string)
             (isDirectory : bool),
        shouldIgnore sep minimatch this relativePath isDirectory
        = shouldIgnore sep minimatch
            (withPatterns this
               (filter (fun x => negb (inertPattern x))
                       (ignorePatterns this)))
            relativePath isDirectory)
  /\ (forall (this : FileSynchronizer) (relativePath : string)
             (isDirectory : bool),
        forallb inertPattern (ignorePatterns this) = true ->
        shouldIgnore sep minimatch this relativePath isDirectory
        = hasHiddenPart sep relativePath).
Proof.
  split; [exact inert_never_matches |]. split.
  - intros this relativePath isDirectory. unfold shouldIgnore.
    cbn [withPatterns ignorePatterns].
    destruct (hasHiddenPart sep relativePath); [reflexivity |].
    set (f := fun rawPattern : string => matchGitignorePattern _ _ _ _ _).
    assert (Hf : existsb f (filter (fun x => negb (inertPattern x))
                                   (ignorePatterns this))
                 = existsb f (ignorePatterns this)).
    { apply existsb_active. intros x Hx. now apply inert_never_matches. }
    rewrite <- Hf.
    destruct (ignorePatterns this) as [| x l]; [reflexivity |].
    destruct (filter _ (x :: l)) as [| y l']; cbn [List.length Nat.eqb];
      [| reflexivity].
    now destruct (JsString.isEmpty _).
  - intros this relativePath isDirectory Hall. unfold shouldIgnore.
    destruct (hasHiddenPart sep relativePath); [reflexivity |].
    destruct (_ =? 0)%nat; [reflexivity |].
    destruct (JsString.isEmpty _); [reflexivity |].
    apply existsb_all_inert; [| assumption].
    intros x Hx. now apply inert_never_matches.
Qed.

End PathMatcherFacts.

(** The path [.git/config] with no pattern configured. *)
Lemma shouldIgnore_hidden_witness :
  shouldIgnore "/" Minimatch.minimatch (testSynchronizer [])
               ".git/config" false = true.
Proof.
  apply shouldIgnore_hidden. exists ".git".
  split; [left; reflexivity | reflexivity].
Defined.

(** The file [keep.log] under an empty pattern, a comment and a
    negation. *)
Lemma shouldIgnore_inert_patterns_witness :
  matchGitignorePattern Minimatch.minimatch "keep.log" "keep.log"
                        "!keep.log" false = false
  /\ shouldIgnore "/" Minimatch.minimatch
       (testSynchronizer [""; "# build"; "!keep.log"]) "keep.log" false
     = hasHiddenPart "/" "keep.log".
Proof.
  split.
  - apply (proj1 (shouldIgnore_inert_patterns "/" Minimatch.minimatch)).
    reflexivity.
  - apply (proj2 (proj2 (shouldIgnore_inert_patterns
                           "/" Minimatch.minimatch))).
    reflexivity.
Defined.

(** ** The root-relative pattern [/public/app] *)















(** The instances of the pattern [/public/app] that the tests of the
    repository check: the directory itself and files below it are
    ignored, [src/public/app] is not. *)
Lemma shouldIgnore_public_app_examples :
  shouldIgnore "/" Minimatch.minimatch (testSynchronizer ["/public/app"])
               "public/app" true = true
  /\ shouldIgnore "/" Minimatch.minimatch (testSynchronizer ["/public/app"])
                  "public/app/bundle.js" false = true
  /\ shouldIgnore "/" Minimatch.minimatch (testSynchronizer ["/public/app"])
                  "public/app/chunks/vendor.js" false = true
  /\ shouldIgnore "/" Minimatch.minimatch (testSynchronizer ["/public/app"])
                  "src/public/app" true = false
  /\ shouldIgnore "/" Minimatch.minimatch (testSynchronizer ["/public/app"])
                  "src/public/app" false = false.
Proof. repeat split; reflexivity. Qed.

(** The function taken alone, at the path of a file [a\.b] in the
    directory [public/app], on a platform whose separator is the slash:
    no segment between slashes starts with a dot, the normalized path is
    [public/app/a/.b], and the function answers false under the pattern
    [/public/app].  No scan asks it about that path: the directory
    [public/app] is ignored, and a scan does not go below it. *)
Lemma shouldIgnore_public_app_backslash :
  hasHiddenPart "/" "public/app/a\.b" = false
  /\ normalizePath "public/app/a\.b" = "public/app/a/.b"
  /\ Minimatch.minimatch "public/app/a/.b" "public/app" rootRelativeOpts
     = false
  /\ Minimatch.minimatch "public/app/a/.b" "public/app/**" rootRelativeOpts
     = false
  /\ shouldIgnore "/" Minimatch.minimatch (testSynchronizer ["/public/app"])
                  "public/app/a\.b" false = false.
Proof. repeat split; reflexivity. Qed.

(** ** The expectations of [synchronizer.test.ts] *)

Lemma tests_root_relative :
  testShouldIgnore patterns_root_relative "public/app" true = true
  /\ testShouldIgnore patterns_root_relative "public/app/bundle.js"
       false = true
  /\ testShouldIgnore patterns_root_relative "public/app/chunks/vendor.js"
       false = true
  /\ testShouldIgnore patterns_root_relative "src/public/app" true = false
  /\ testShouldIgnore patterns_root_relative "public/js" true = true
  /\ testShouldIgnore patterns_root_relative "public/js/main.js" false = true
  /\ testShouldIgnore patterns_root_relative ".tmp" true = true
  /\ testShouldIgnore patterns_root_relative ".tmp/cache/file.txt"
       false = true.
Proof. repeat split; reflexivity. Qed.

Lemma tests_directory :
  testShouldIgnore patterns_directory "node_modules" true = true
  /\ testShouldIgnore patterns_directory "node_modules/lodash/index.js"
       false = true
  /\ testShouldIgnore patterns_directory "packages/core/node_modules"
       true = true
  /\ testShouldIgnore patterns_directory "dist" true = true
  /\ testShouldIgnore patterns_directory "dist/index.js" false = true.
Proof. repeat split; reflexivity. Qed.

Lemma tests_globstar :
  testShouldIgnore patterns_globstar "error.log" false = true
  /\ testShouldIgnore patterns_globstar "logs/error.log" false = true
  /\ testShouldIgnore patterns_globstar "deep/nested/path/debug.log"
       false = true
  /\ testShouldIgnore patterns_globstar "build" true = true
  /\ testShouldIgnore patterns_globstar "build/index.js" false = true
  /\ testShouldIgnore patterns_globstar "build/assets/style.css" false = true
  /\ testShouldIgnore patterns_globstar ".next" true = true
  /\ testShouldIgnore patterns_globstar ".next/cache" true = true
  /\ testShouldIgnore patterns_globstar ".next/static/chunks/main.js"
       false = true.
Proof. repeat split; reflexivity. Qed.

Lemma tests_hot_update :
  testShouldIgnore patterns_hot_update "main.abc123.hot-update.js"
       false = true
  /\ testShouldIgnore patterns_hot_update "abc123.hot-update.json"
       false = true
  /\ testShouldIgnore patterns_hot_update "main.abc123.hot-update.js.map"
       false = true
  /\ testShouldIgnore patterns_hot_update "public/js/main.hot-update.js"
       false = true.
Proof. repeat split; reflexivity. Qed.

Lemma tests_filename :
  testShouldIgnore patterns_filename "app.min.js" false = true
  /\ testShouldIgnore patterns_filename "dist/vendor.min.js" false = true
  /\ testShouldIgnore patterns_filename "styles.bundle.css" false = true
  /\ testShouldIgnore patterns_filename "public/css/main.bundle.css"
       false = true
  /\ testShouldIgnore patterns_filename ".env" false = true.
Proof. repeat split; reflexivity. Qed.

Lemma tests_hidden_files :
  testShouldIgnore patterns_hidden_files ".git" true = true
  /\ testShouldIgnore patterns_hidden_files ".git/config" false = true
  /\ testShouldIgnore patterns_hidden_files ".gitignore" false = true
  /\ testShouldIgnore patterns_hidden_files ".eslintrc" false = true
  /\ testShouldIgnore patterns_hidden_files ".cache/files/data.json"
       false = true.
Proof. repeat split; reflexivity. Qed.

Lemma tests_real_world :
  testShouldIgnore patterns_real_world ".tmp" true = true
  /\ testShouldIgnore patterns_real_world ".tmp/yarn/cache" true = true
  /\ testShouldIgnore patterns_real_world ".tmp/lint-js/output.txt"
       false = true
  /\ testShouldIgnore patterns_real_world "public/app" true = true
  /\ testShouldIgnore patterns_real_world "public/app/app.js" false = true
  /\ testShouldIgnore patterns_real_world "public/app/chunk-vendor.abc123.js"
       false = true
  /\ testShouldIgnore patterns_real_world "public/js" true = true
  /\ testShouldIgnore patterns_real_world "public/js/main.js" false = true
  /\ testShouldIgnore patterns_real_world "public/js/wall-grid.js"
       false = true
  /\ testShouldIgnore patterns_real_world "public/css" true = true
  /\ testShouldIgnore patterns_real_world "public/css/main.css" false = true
  /\ testShouldIgnore patterns_real_world "error.log" false = true
  /\ testShouldIgnore patterns_real_world "htdocs/app/tmp/logs/debug.log"
       false = true
  /\ testShouldIgnore patterns_real_world "src/index.ts" false = false
  /\ testShouldIgnore patterns_real_world "assets/js/main.js" false = false
  /\ testShouldIgnore patterns_real_world "react-app/backend.jsx"
       false = false.
Proof. repeat split; reflexivity. Qed.


(** * Further properties *)

(** ** Maps filled by [set] *)

Lemma setEntries_keys (l : list (string * string)) (k v : string) :
  map fst (setEntries l k v)
  = if existsb (JsMap.keyIs k) l then map fst l else map fst l ++ [k].
Proof.
  induction l as [| e r IH]; cbn [setEntries existsb map];
    [reflexivity |].
  destruct (JsMap.keyIs k e) eqn:Ek; cbn [orb map fst].
  - apply String.eqb_eq in Ek. now rewrite Ek.
  - rewrite IH. now destruct (existsb (JsMap.keyIs k) r).
Qed.

Lemma existsb_keyIs (l : list (string * string)) (k : string) :
  existsb (JsMap.keyIs k) l = true <-> In k (map fst l).
Proof.
  rewrite existsb_exists, in_map_iff. unfold JsMap.keyIs.
  split; intros [e [H1 H2]].
  - apply String.eqb_eq in H2. now exists e.
  - exists e. split; [assumption | now apply String.eqb_eq].
Qed.

Lemma setEntries_unique (l : list (string * string)) (k v : string) :
  JsMap.uniqueb (map fst l) = true ->
  JsMap.uniqueb (map fst (setEntries l k v)) = true.
Proof.
  rewrite !uniqueb_NoDup, setEntries_keys. intros Hnd.
  destruct (existsb (JsMap.keyIs k) l) eqn:E; [assumption |].
  apply NoDup_app_remove_l with (l := []). simpl.
  apply Permutation_NoDup with (l := k :: map fst l).
  - apply Permutation_cons_append.
  - constructor; [| assumption].
    intro Hin. apply existsb_keyIs in Hin. congruence.
Qed.

Lemma mapSet_entries (m : JsMap.t) (k v : string) :
  JsMap.entries (mapSet m k v) = setEntries (JsMap.entries m) k v.
Proof.
  unfold mapSet.
  pose proof (setEntries_unique (JsMap.entries m) k v (JsMap.unique m))
    as Hu.
  generalize (eq_refl (JsMap.uniqueb
                         (map fst (setEntries (JsMap.entries m) k v)))).
  generalize (JsMap.uniqueb
                (map fst (setEntries (JsMap.entries m) k v))) at 2 3.
  intros b. destruct b; intros H; [reflexivity | congruence].
Qed.

(** Two maps with the same entries are the same map. *)
Lemma JsMap_ext (m1 m2 : JsMap.t) :
  JsMap.entries m1 = JsMap.entries m2 -> m1 = m2.
Proof.
  destruct m1 as [l1 u1], m2 as [l2 u2]. simpl. intros ->.
  f_equal. apply Eqdep_dec.UIP_dec. apply Bool.bool_dec.
Qed.

(** ** The exact diff *)

Lemma no_member_nil {A : Type} (l : list A) :
  (forall x, ~ In x l) -> l = [].
Proof.
  destruct l as [| a l]; [reflexivity |].
  intros H. exfalso. apply (H a). now left.
Qed.

Lemma get_none_has (m : JsMap.t) (k : string) :
  JsMap.get m k = None <-> JsMap.has m k = false.
Proof.
  destruct (JsMap.has m k) eqn:E.
  - apply get_has in E. destruct E as [v Hv]. rewrite Hv.
    split; discriminate.
  - split; [reflexivity | intros _].
    destruct (JsMap.get m k) as [v |] eqn:Hv; [| reflexivity].
    assert (JsMap.has m k = true) by (apply get_has; now exists v).
    congruence.
Qed.

Lemma sameMapping_compareStates (oldHashes newHashes : JsMap.t) :
  JsMap.sameMapping oldHashes newHashes ->
  compareStates oldHashes newHashes = noChanges.
Proof.
  intros Hsame.
  assert (Hhas : forall k, JsMap.has oldHashes k = JsMap.has newHashes k).
  { intros k. destruct (JsMap.has newHashes k) eqn:E.
    - apply get_has in E. destruct E as [v Hv]. apply get_has.
      exists v. now rewrite Hsame.
    - apply get_none_has. rewrite Hsame. now apply get_none_has. }
  destruct (compareStates oldHashes newHashes) as [a r m] eqn:Hd.
  unfold noChanges. f_equal; apply no_member_nil; intros k Hk.
  - assert (Hin : In k (added (compareStates oldHashes newHashes)))
      by (rewrite Hd; exact Hk).
    apply added_iff in Hin. rewrite Hhas in Hin.
    destruct Hin. congruence.
  - assert (Hin : In k (removed (compareStates oldHashes newHashes)))
      by (rewrite Hd; exact Hk).
    apply removed_iff in Hin. rewrite Hhas in Hin.
    destruct Hin. congruence.
  - assert (Hin : In k (modified (compareStates oldHashes newHashes)))
      by (rewrite Hd; exact Hk).
    apply modified_iff in Hin. destruct Hin as [h [h' [Hn [Ho Hne]]]].
    rewrite Hsame in Ho. congruence.
Qed.

(** X1: the diff of [compareStates] is empty exactly when the two maps
    are equal as mappings, whatever their enumeration orders. *)
Theorem compareStates_empty_iff (oldHashes newHashes : JsMap.t) :
  compareStates oldHashes newHashes = noChanges
  <-> JsMap.sameMapping oldHashes newHashes.
Proof.
  split; [| apply sameMapping_compareStates].
  intros Hd k.
  assert (Ha : ~ In k (added (compareStates oldHashes newHashes)))
    by (rewrite Hd; intros []).
  assert (Hr : ~ In k (removed (compareStates oldHashes newHashes)))
    by (rewrite Hd; intros []).
  assert (Hm : ~ In k (modified (compareStates oldHashes newHashes)))
    by (rewrite Hd; intros []).
  rewrite added_iff in Ha. rewrite removed_iff in Hr.
  rewrite modified_iff in Hm.
  destruct (JsMap.get newHashes k) as [h |] eqn:Hn.
  - assert (Hhn : JsMap.has newHashes k = true)
      by (apply get_has; now exists h).
    destruct (JsMap.get oldHashes k) as [h' |] eqn:Ho.
    + destruct (string_dec h h') as [-> | Hne]; [reflexivity |].
      exfalso. apply Hm. now exists h, h'.
    + exfalso. apply Ha. split; [assumption |].
      now apply get_none_has.
  - apply get_none_has in Hn.
    destruct (JsMap.get oldHashes k) as [h' |] eqn:Ho; [| reflexivity].
    exfalso. apply Hr. split; [| assumption].
    apply get_has. now exists h'.
Qed.

(** The maps [{a:1, b:2}] and [{b:2, a:1}]. *)
Lemma compareStates_empty_iff_witness :
  compareStates sortedState unsortedState = noChanges.
Proof.
  apply (proj2 (compareStates_empty_iff sortedState unsortedState)).
  intros k. unfold JsMap.get, JsMap.keyIs, sortedState, unsortedState.
  cbn [JsMap.entries find fst].
  destruct (String.eqb_spec "a" k) as [<- | Ha]; [reflexivity |].
  destruct (String.eqb_spec "b" k) as [<- | Hb]; reflexivity.
Defined.

(** X2: with the two maps exchanged, [added] and [removed] change
    places, as the very same lists, and [modified] holds the same
    paths. *)
Theorem compareStates_exchange (m1 m2 : JsMap.t) :
  added (compareStates m1 m2) = removed (compareStates m2 m1)
  /\ removed (compareStates m1 m2) = added (compareStates m2 m1)
  /\ (forall p, In p (modified (compareStates m1 m2))
                <-> In p (modified (compareStates m2 m1))).
Proof.
  rewrite !compareStates_filters. cbn [added removed].
  split; [reflexivity |]. split; [reflexivity |].
  intros p. rewrite <- !compareStates_filters, !modified_iff.
  split; intros [h [h' [H1 [H2 Hne]]]]; exists h', h;
    repeat split; auto.
Qed.

Lemma filter_split_length {A : Type} (f : A -> bool) (l : list A) :
  List.length l
  = List.length (filter f l)
    + List.length (filter (fun x => negb (f x)) l).
Proof.
  induction l as [| a l IH]; simpl; [reflexivity |].
  destruct (f a); simpl; lia.
Qed.

(** X3: the sizes of the two maps and of the lists balance: the paths
    of the old map plus the added ones are as many as the paths of the
    new map plus the removed ones. *)
Theorem compareStates_balance (oldHashes newHashes : JsMap.t) :
  JsMap.size oldHashes
  + List.length (added (compareStates oldHashes newHashes))
  = JsMap.size newHashes
    + List.length (removed (compareStates oldHashes newHashes)).
Proof.
  rewrite compareStates_filters. cbn [added removed].
  assert (Hsize : forall m, JsMap.size m = List.length (JsMap.keys m))
    by (intros m; unfold JsMap.size, JsMap.keys; now rewrite length_map).
  rewrite !Hsize.
  rewrite (filter_split_length (JsMap.has newHashes) (JsMap.keys oldHashes)).
  rewrite (filter_split_length (JsMap.has oldHashes) (JsMap.keys newHashes)).
  assert (Hcommon :
            List.length (filter (JsMap.has newHashes) (JsMap.keys oldHashes))
            = List.length (filter (JsMap.has oldHashes)
                                  (JsMap.keys newHashes))).
  { apply Permutation_length, NoDup_Permutation.
    - apply NoDup_filter_str, keys_NoDup.
    - apply NoDup_filter_str, keys_NoDup.
    - intros k. rewrite !filter_In, <- !has_In. tauto. }
  unfold isAdded. lia.
Qed.

(** X4: each list comes in the enumeration order of the map it is drawn
    from: [added] and [modified] are what is left of the paths of the new
    map, in their order, and [removed] of the paths of the old map. *)
Theorem compareStates_order (oldHashes newHashes : JsMap.t) :
  added (compareStates oldHashes newHashes)
  = filter (fun p => negb (JsMap.has oldHashes p)) (JsMap.keys newHashes)
  /\ modified (compareStates oldHashes newHashes)
     = filter (fun p => JsMap.has oldHashes p
                        && differsFrom (JsMap.get oldHashes p)
                                       (hashAt newHashes p))
              (JsMap.keys newHashes)
  /\ removed (compareStates oldHashes newHashes)
     = filter (fun p => negb (JsMap.has newHashes p)) (JsMap.keys oldHashes).
Proof.
  rewrite compareStates_filters. cbn [added removed modified].
  split; [reflexivity |]. split; [| reflexivity].
  unfold JsMap.keys.
  assert (H : forall l,
             (forall e, In e l -> In e (JsMap.entries newHashes)) ->
             map fst (filter (isModified oldHashes) l)
             = filter (fun p => JsMap.has oldHashes p
                                && differsFrom (JsMap.get oldHashes p)
                                               (hashAt newHashes p))
                      (map fst l)).
  { induction l as [| [k v] l IH]; intros Hin; [reflexivity |].
    cbn [filter map fst]. unfold isModified at 1. cbn [fst snd].
    assert (Hv : hashAt newHashes k = v).
    { unfold hashAt.
      rewrite (proj2 (get_In newHashes k v) (Hin _ (or_introl eq_refl))).
      reflexivity. }
    rewrite Hv.
    destruct (JsMap.has oldHashes k
              && differsFrom (JsMap.get oldHashes k) v);
      cbn [map fst]; rewrite IH; try reflexivity;
      intros e He; apply Hin; now right. }
  apply H. auto.
Qed.

(** ** The tree and the enumeration order of the map *)

Lemma leb_iff (a b : string) :
  String.leb a b = true <-> a = b \/ OrderedTypeEx.String_as_OT.lt a b.
Proof.
  unfold String.leb.
  destruct (String.compare a b) eqn:E.
  - apply OrderedTypeEx.String_as_OT.cmp_eq in E. tauto.
  - apply OrderedTypeEx.String_as_OT.cmp_lt in E. tauto.
  - split; [discriminate |]. intros [-> | Hlt].
    + assert (String.compare b b = Eq)
        by (now apply OrderedTypeEx.String_as_OT.cmp_eq).
      congruence.
    + apply OrderedTypeEx.String_as_OT.cmp_lt in Hlt.
      unfold OrderedTypeEx.String_as_OT.cmp in Hlt. congruence.
Qed.

Lemma leb_trans (a b c : string) :
  String.leb a b = true -> String.leb b c = true -> String.leb a c = true.
Proof.
  rewrite !leb_iff. intros [-> | H1] [-> | H2]; auto.
  right. eapply OrderedTypeEx.String_as_OT.lt_trans; eassumption.
Qed.

(** A list of strings has one ascending arrangement. *)
Lemma sorted_unique (l1 l2 : list string) :
  Sorted (fun a b => String.leb a b = true) l1 ->
  Sorted (fun a b => String.leb a b = true) l2 ->
  Permutation l1 l2 -> l1 = l2.
Proof.
  intros S1 S2.
  apply Sorted_StronglySorted in S1; [| intros x y z; apply leb_trans].
  apply Sorted_StronglySorted in S2; [| intros x y z; apply leb_trans].
  revert l2 S2.
  induction S1 as [| a l1 S1 IH Ha]; intros l2 S2 Hp.
  - apply Permutation_nil in Hp. now subst.
  - destruct S2 as [| b l2 S2 Hb].
    + apply Permutation_sym, Permutation_nil in Hp. discriminate.
    + assert (Hab : a = b).
      { assert (Hina : In a (b :: l2))
          by (apply (Permutation_in a Hp); now left).
        assert (Hinb : In b (a :: l1))
          by (apply (Permutation_in b (Permutation_sym Hp)); now left).
        destruct Hina as [-> | Hina]; [reflexivity |].
        destruct Hinb as [-> | Hinb]; [reflexivity |].
        rewrite Forall_forall in Ha, Hb.
        apply String.leb_antisym; [apply Ha | apply Hb]; assumption. }
      subst b. f_equal. apply IH; [assumption |].
      now apply Permutation_cons_inv in Hp.
Qed.

Lemma sameMapping_keys (m1 m2 : JsMap.t) :
  JsMap.sameMapping m1 m2 -> Permutation (JsMap.keys m1) (JsMap.keys m2).
Proof.
  intros Hsame. apply NoDup_Permutation; try apply keys_NoDup.
  intros k. rewrite <- !has_In, !get_has.
  split; intros [v Hv]; exists v; [rewrite <- Hsame | rewrite Hsame];
    assumption.
Qed.

Lemma sameMapping_sortedPaths (m1 m2 : JsMap.t) :
  JsMap.sameMapping m1 m2 -> sortedPaths m1 = sortedPaths m2.
Proof.
  intros Hsame. apply sorted_unique; try apply sortedPaths_sorted.
  eapply Permutation_trans;
    [apply Permutation_sym, sortedPaths_perm |].
  eapply Permutation_trans; [| apply sortedPaths_perm].
  now apply sameMapping_keys.
Qed.

(** X5: two maps that are equal as mappings, whatever their enumeration
    orders, get the same leaves, in the same order, with the same
    contents and identifiers; only the root of the tree can differ. *)
Theorem buildMerkleDAG_leaves_order_free
    (digest : string -> string) (m1 m2 : JsMap.t) :
  JsMap.sameMapping m1 m2 ->
  map MerkleDAG.data (tl (MerkleDAG.nodes (buildMerkleDAG digest m1)))
  = map MerkleDAG.data (tl (MerkleDAG.nodes (buildMerkleDAG digest m2)))
  /\ map MerkleDAG.id (tl (MerkleDAG.nodes (buildMerkleDAG digest m1)))
     = map MerkleDAG.id (tl (MerkleDAG.nodes (buildMerkleDAG digest m2))).
Proof.
  intros Hsame. rewrite !buildMerkleDAG_nodes. cbn [MerkleDAG.nodes tl].
  rewrite !map_map. cbn [leafNode MerkleDAG.data MerkleDAG.id].
  rewrite (sameMapping_sortedPaths m1 m2 Hsame).
  assert (Hdata : forall p, fileData m1 p = fileData m2 p)
    by (intros p; unfold fileData; now rewrite Hsame).
  split; apply map_ext; intros p; now rewrite Hdata.
Qed.

(** The maps [{a:1, b:2}] and [{b:2, a:1}]. *)
Lemma buildMerkleDAG_leaves_order_free_witness :
  map MerkleDAG.data
      (tl (MerkleDAG.nodes (buildMerkleDAG (fun s => s) sortedState)))
  = map MerkleDAG.data
        (tl (MerkleDAG.nodes (buildMerkleDAG (fun s => s) unsortedState)))
  /\ map MerkleDAG.id
         (tl (MerkleDAG.nodes (buildMerkleDAG (fun s => s) sortedState)))
     = map MerkleDAG.id
           (tl (MerkleDAG.nodes (buildMerkleDAG (fun s => s) unsortedState))).
Proof.
  apply buildMerkleDAG_leaves_order_free.
  intros k. unfold JsMap.get, JsMap.keyIs, sortedState, unsortedState.
  cbn [JsMap.entries find fst].
  destruct (String.eqb_spec "a" k) as [<- | Ha]; [reflexivity |].
  destruct (String.eqb_spec "b" k) as [<- | Hb]; reflexivity.
Defined.

(** ** [saveSnapshot] and the open gate of [checkForChanges] *)

Lemma fileAt_writeFile (path : string) (doc : SnapshotDoc)
    (fs fs' : FileSystem) :
  writeFile path doc fs = (Ok tt, fs') ->
  fileAt fs' path = Some doc
  /\ (forall other, other <> path -> fileAt fs' other = fileAt fs other)
  /\ directories fs' = directories fs.
Proof.
  unfold writeFile. destruct (failure fs WriteFile path); [discriminate |].
  intros H. injection H as <-. unfold fileAt. cbn [files directories].
  split; [| split; [| reflexivity]].
  - cbn [find fst]. now rewrite String.eqb_refl.
  - intros other Hne. cbn [find fst].
    destruct (String.eqb_spec path other) as [-> | _]; [congruence |].
    f_equal. induction (files fs) as [| f l IH]; [reflexivity |].
    cbn [filter find].
    destruct (String.eqb_spec (fst f) path) as [Hf | Hf]; cbn [negb find].
    + destruct (String.eqb_spec (fst f) other) as [Ho | _];
        [congruence | exact IH].
    + destruct (fst f =? other)%string; [reflexivity | exact IH].
Qed.

Lemma fileAt_mkdir (dir : string) (fs fs' : FileSystem) (r : Result unit) :
  mkdir dir fs = (r, fs') -> files fs' = files fs /\ failure fs' = failure fs.
Proof.
  unfold mkdir. destruct (failure fs Mkdir dir).
  - intros H. injection H as _ <-. now split.
  - intros H. injection H as _ <-.
    destruct (existsb (String.eqb dir) (directories fs)); now split.
Qed.

Lemma saveSnapshot_unfold (path_dirname : string -> string)
    (this : FileSynchronizer) (fs : FileSystem) :
  saveSnapshot path_dirname (this, fs)
  = match mkdir (path_dirname (snapshotPath this)) fs with
    | (Ok _, fs1) =>
        let '(r, fs2) := writeFile (snapshotPath this) (snapshotOf this) fs1
        in (r, (this, fs2))
    | (Throw e, fs1) => (Throw e, (this, fs1))
    end.
Proof.
  unfold saveSnapshot, bind, getThis, onDisk, snapshotOf. cbn [fst snd].
  destruct (mkdir _ fs) as [[[] | e] fs1]; reflexivity.
Qed.

Section OpenGate.

Variable path_dirname : string -> string.
Variable digest : string -> string.

Lemma checkForChanges_open
    (newFileHashes : JsMap.t) (this : FileSynchronizer) (fs : FileSystem) :
  gateOpen digest this newFileHashes = true ->
  checkForChanges path_dirname digest newFileHashes (this, fs)
  = match saveSnapshot path_dirname
            (holding digest this newFileHashes, fs) with
    | (Ok _, w') =>
        (Ok (compareStates (fileHashes this) newFileHashes), w')
    | (Throw e, w') => (Throw e, w')
    end.
Proof.
  unfold gateOpen. intros Hgate.
  unfold checkForChanges, bind, getThis, setThis, ret, holding.
  cbn [fst snd]. rewrite Hgate.
  destruct (saveSnapshot path_dirname _) as [[[] | e] w']; reflexivity.
Qed.

(** X6: a call returns with the held tree being the tree of the held
    map whenever it was entered so, whether the gate opened or not and
    whether the snapshot could be written or not. *)
Theorem checkForChanges_keeps_tree
    (newFileHashes : JsMap.t) (w : World) :
  treeMatches digest (fst w) ->
  treeMatches digest
    (fst (snd (checkForChanges path_dirname digest newFileHashes w))).
Proof.
  destruct w as [this fs]. cbn [fst]. intros Hinv.
  destruct (gateOpen digest this newFileHashes) eqn:Hgate.
  - rewrite checkForChanges_open by assumption.
    rewrite saveSnapshot_unfold.
    destruct (mkdir _ fs) as [[[] | e] fs1]; [| reflexivity].
    destruct (writeFile _ _ fs1) as [[[] | e] fs2]; reflexivity.
  - unfold gateOpen in Hgate.
    unfold checkForChanges, bind, getThis, ret. cbn [fst snd].
    rewrite Hgate. exact Hinv.
Qed.

(** X7: when the gate opens and the disk takes the directory and the
    file, the call returns the exact diff of the held map against the
    scan, the object then holds the scan and its tree, and the snapshot
    file holds the pairs of the scan and that tree; every other file is
    as it was. *)
Theorem checkForChanges_records_change
    (newFileHashes : JsMap.t) (this : FileSynchronizer) (fs : FileSystem) :
  gateOpen digest this newFileHashes = true ->
  failure fs Mkdir (path_dirname (snapshotPath this)) = None ->
  failure fs WriteFile (snapshotPath this) = None ->
  exists fs',
    checkForChanges path_dirname digest newFileHashes (this, fs)
    = (Ok (compareStates (fileHashes this) newFileHashes),
       (holding digest this newFileHashes, fs'))
    /\ fileAt fs' (snapshotPath this)
       = Some (snapshotOf (holding digest this newFileHashes))
    /\ (forall other, other <> snapshotPath this ->
                      fileAt fs' other = fileAt fs other).
Proof.
  intros Hgate Hmk Hwr.
  rewrite checkForChanges_open by assumption. rewrite saveSnapshot_unfold.
  change (snapshotPath (holding digest this newFileHashes))
    with (snapshotPath this).
  destruct (mkdir (path_dirname (snapshotPath this)) fs) as [r fs1] eqn:Em.
  destruct (fileAt_mkdir _ _ _ _ Em) as [Hfiles Hfail].
  assert (Hr : r = Ok tt).
  { unfold mkdir in Em. rewrite Hmk in Em. now injection Em as <- _. }
  subst r.
  destruct (writeFile (snapshotPath this)
              (snapshotOf (holding digest this newFileHashes)) fs1)
    as [r2 fs2] eqn:Ew.
  assert (Hr2 : r2 = Ok tt).
  { unfold writeFile in Ew. rewrite Hfail, Hwr in Ew.
    now injection Ew as <- _. }
  subst r2. exists fs2. split; [reflexivity |].
  destruct (fileAt_writeFile _ _ _ _ Ew) as [Hat [Hother _]].
  split; [exact Hat |].
  intros other Hne. rewrite (Hother other Hne).
  unfold fileAt. now rewrite Hfiles.
Qed.

(** X8: when the gate opens and the disk refuses the snapshot file, the
    error is thrown instead of the diff, no snapshot file changes, and
    the object holds the scan all the same: a further call on the same
    scan returns the empty diff. *)
Theorem checkForChanges_failed_write
    (newFileHashes : JsMap.t) (this : FileSynchronizer) (fs : FileSystem)
    (e : FsError) :
  gateOpen digest this newFileHashes = true ->
  failure fs WriteFile (snapshotPath this) = Some e ->
  exists e' fs',
    checkForChanges path_dirname digest newFileHashes (this, fs)
    = (Throw e', (holding digest this newFileHashes, fs'))
    /\ files fs' = files fs
    /\ fst (checkForChanges path_dirname digest newFileHashes
              (holding digest this newFileHashes, fs'))
       = Ok noChanges.
Proof.
  intros Hgate Hwr.
  rewrite checkForChanges_open by assumption. rewrite saveSnapshot_unfold.
  change (snapshotPath (holding digest this newFileHashes))
    with (snapshotPath this).
  destruct (mkdir (path_dirname (snapshotPath this)) fs) as [r fs1] eqn:Em.
  destruct (fileAt_mkdir _ _ _ _ Em) as [Hfiles Hfail].
  destruct r as [[] | e1].
  - unfold writeFile. rewrite Hfail, Hwr.
    exists e, fs1. split; [reflexivity |]. split; [assumption |].
    now rewrite checkForChanges_same_tree.
  - exists e1, fs1. split; [reflexivity |]. split; [assumption |].
    now rewrite checkForChanges_same_tree.
Qed.

(** X9: a scan that is equal, as a mapping, to the held map never yields
    a non-empty diff, also when its enumeration order differs and the
    gate opens on that account. *)
Theorem checkForChanges_same_mapping
    (newFileHashes : JsMap.t) (w : World) (d : Changes) :
  JsMap.sameMapping (fileHashes (fst w)) newFileHashes ->
  fst (checkForChanges path_dirname digest newFileHashes w) = Ok d ->
  d = noChanges.
Proof.
  intros Hsame Hd.
  destruct (checkForChanges_returns path_dirname digest newFileHashes w d Hd)
    as [-> | ->]; [reflexivity |].
  now apply sameMapping_compareStates.
Qed.

End OpenGate.

(** A scan of [{b:h}] by a synchronizer that holds [{a:h}] and its
    tree. *)
Lemma checkForChanges_keeps_tree_witness :
  treeMatches (fun s => s)
    (fst (snd (checkForChanges dirnameSlash (fun s => s) stateB
                 (readyA, emptyDisk)))).
Proof.
  apply (checkForChanges_keeps_tree dirnameSlash (fun s => s) stateB
           (readyA, emptyDisk)).
  reflexivity.
Defined.

(** A scan of [{b:h2, c:h3}] by a synchronizer that holds [{a:h1, b:h2}]
    and its tree, on an empty disk. *)
Lemma checkForChanges_records_change_witness :
  exists fs',
    checkForChanges dirnameSlash (fun s => s) exampleNew
                    (readyOld, emptyDisk)
    = (Ok (compareStates exampleOld exampleNew),
       (holding (fun s => s) readyOld exampleNew, fs'))
    /\ fileAt fs' "/home/.context/merkle/0.json"
       = Some (snapshotOf (holding (fun s => s) readyOld exampleNew))
    /\ (forall other, other <> "/home/.context/merkle/0.json" ->
                      fileAt fs' other = fileAt emptyDisk other).
Proof.
  apply (checkForChanges_records_change dirnameSlash (fun s => s)
           exampleNew readyOld emptyDisk); reflexivity.
Defined.

(** The same scan on a disk that refuses every write. *)
Lemma checkForChanges_failed_write_witness :
  exists e' fs',
    checkForChanges dirnameSlash (fun s => s) exampleNew
                    (readyOld, readOnlyDisk)
    = (Throw e', (holding (fun s => s) readyOld exampleNew, fs'))
    /\ files fs' = files readOnlyDisk
    /\ fst (checkForChanges dirnameSlash (fun s => s) exampleNew
              (holding (fun s => s) readyOld exampleNew, fs'))
       = Ok noChanges.
Proof.
  apply (checkForChanges_failed_write dirnameSlash (fun s => s)
           exampleNew readyOld readOnlyDisk
           (mkFsError "EROFS" "read-only file system")); reflexivity.
Defined.

(** A scan of [{b:2, a:1}] by a synchronizer that holds [{a:1, b:2}]:
    the gate opens, the diff is empty. *)
Lemma checkForChanges_same_mapping_witness :
  gateOpen (fun s => s) readySorted unsortedState = true
  /\ compareStates sortedState unsortedState = noChanges.
Proof.
  split; [reflexivity |].
  apply (checkForChanges_same_mapping dirnameSlash (fun s => s)
           unsortedState (readySorted, emptyDisk)).
  - intros k. unfold JsMap.get, JsMap.keyIs, readySorted, sortedState,
      unsortedState.
    cbn [fst fileHashes JsMap.entries find].
    destruct (String.eqb_spec "a" k) as [<- | Ha]; [reflexivity |].
    destruct (String.eqb_spec "b" k) as [<- | Hb]; reflexivity.
  - reflexivity.
Defined.

(** ** The scan of the tree *)

Lemma setEntries_In (l : list (string * string)) (k v : string)
    (e : string * string) :
  In e (setEntries l k v) -> e = (k, v) \/ In e l.
Proof.
  induction l as [| e0 r IH]; cbn [setEntries In].
  - intros [<- | []]. now left.
  - destruct (JsMap.keyIs k e0).
    + intros [<- | H]; [now left | right; now right].
    + intros [<- | H]; [right; now left |].
      destruct (IH H) as [-> | H']; [now left | right; now right].
Qed.

Lemma mapSet_In (m : JsMap.t) (k v : string) (e : string * string) :
  In e (JsMap.entries (mapSet m k v)) ->
  e = (k, v) \/ In e (JsMap.entries m).
Proof. rewrite mapSet_entries. apply setEntries_In. Qed.

Lemma mapSet_keys (m : JsMap.t) (k v k' : string) :
  In k' (JsMap.keys (mapSet m k v)) <-> k' = k \/ In k' (JsMap.keys m).
Proof.
  unfold JsMap.keys. rewrite mapSet_entries, setEntries_keys.
  destruct (existsb (JsMap.keyIs k) (JsMap.entries m)) eqn:E.
  - apply existsb_keyIs in E. split; [now right |].
    intros [-> | H]; assumption.
  - rewrite in_app_iff. cbn [In]. split.
    + intros [H | [<- | []]]; [now right | now left].
    + intros [-> | H]; [right; now left | now left].
Qed.

Lemma mapSetAll_In (l : list (string * string)) (m : JsMap.t)
    (e : string * string) :
  In e (JsMap.entries (mapSetAll m l)) -> In e (JsMap.entries m) \/ In e l.
Proof.
  revert m. induction l as [| [p h] l IH]; intros m; cbn [mapSetAll fold_left].
  - now left.
  - intros H. destruct (IH _ H) as [H' | H']; [| right; now right].
    destruct (mapSet_In _ _ _ _ H') as [-> | H'']; [right; now left | now left].
Qed.

Lemma mapSetAll_keys (l : list (string * string)) (m : JsMap.t)
    (k : string) :
  In k (JsMap.keys (mapSetAll m l))
  <-> In k (JsMap.keys m) \/ In k (map fst l).
Proof.
  revert m. induction l as [| [p h] l IH]; intros m;
    cbn [mapSetAll fold_left map fst In].
  - tauto.
  - change (fold_left (fun m0 '(p0, h0) => mapSet m0 p0 h0) l (mapSet m p h))
      with (mapSetAll (mapSet m p h) l).
    rewrite IH, mapSet_keys. intuition auto.
Qed.

Lemma height_entry (entries : list Dirent) (name : string) (b : bool)
    (target : FsTree) :
  In (name, b, Ok target) entries ->
  height target < height (Directory (Ok entries)).
Proof.
  cbn [height]. induction entries as [| [[n0 b0] st] rest IH];
    [intros [] |].
  intros [H | H].
  - injection H as -> -> ->. lia.
  - specialize (IH H). lia.
Qed.

Section ScanFacts.

Variable sep : ascii.
Variable minimatch : string -> string -> MinimatchOptions -> bool.
Variable path_join : list string -> string.
Variable path_relative : string -> string -> string.
Variable sha256_hex : string -> string.

Local Notation "'scanOf'" :=
  (generateFileHashes sep minimatch path_join path_relative sha256_hex).
Local Notation "'loopOf'" :=
  (scanEntries sep minimatch path_join path_relative sha256_hex).
Local Notation "'turnOf'" :=
  (turn sep minimatch path_join path_relative sha256_hex).

Lemma generateFileHashes_listing
    (this : FileSynchronizer) (dir : string) (entries : list Dirent) :
  scanOf this dir (Directory (Ok entries))
  = loopOf this dir entries JsMap.empty.
Proof.
  cbn [generateFileHashes]. generalize JsMap.empty.
  induction entries as [| [[name isDir] stat] rest IH]; intros acc;
    [reflexivity |].
  cbn [scanEntries]. cbv zeta.
  destruct (shouldIgnore sep minimatch this _ isDir); [apply IH |].
  destruct stat as [target | e]; [| apply IH].
  destruct target as [listing | restat content |].
  - destruct (negb _); [| apply IH].
    destruct (generateFileHashes _ _ _ _ _ _ _ _); [apply IH | reflexivity].
  - destruct (negb _); [| apply IH].
    destruct (hashFile _ _ _ _); apply IH.
  - apply IH.
Qed.

Lemma generateFileHashes_unlisted
    (this : FileSynchronizer) (dir : string) (node : FsTree) :
  (forall entries, node <> Directory (Ok entries)) ->
  scanOf this dir node = Ok JsMap.empty.
Proof.
  intros H. destruct node as [[entries | e] | |]; try reflexivity.
  now destruct (H entries).
Qed.

Lemma scanEntries_cons (this : FileSynchronizer) (dir : string)
    (entry : Dirent) (rest : list Dirent) (acc : JsMap.t) :
  loopOf this dir (entry :: rest) acc
  = match turnOf this dir entry acc with
    | Ok acc' => loopOf this dir rest acc'
    | Throw e => Throw e
    end.
Proof.
  unfold turn. destruct entry as [[name isDir] stat].
  cbn [scanEntries]. cbv zeta.
  destruct (shouldIgnore sep minimatch this _ isDir); [reflexivity |].
  destruct stat as [target | e]; [| reflexivity].
  destruct target as [listing | restat content |]; [| | reflexivity].
  - destruct (negb _); [| reflexivity].
    now destruct (generateFileHashes _ _ _ _ _ _ _ _).
  - destruct (negb _); [| reflexivity].
    now destruct (hashFile _ _ _ _).
Qed.

Lemma scanEntries_app (this : FileSynchronizer) (dir : string)
    (pre post : list Dirent) (acc : JsMap.t) :
  loopOf this dir (pre ++ post) acc
  = match loopOf this dir pre acc with
    | Ok acc' => loopOf this dir post acc'
    | Throw e => Throw e
    end.
Proof.
  revert acc. induction pre as [| entry pre IH]; intros acc;
    [reflexivity |].
  rewrite <- app_comm_cons, !scanEntries_cons.
  destruct (turnOf this dir entry acc); [apply IH | reflexivity].
Qed.

Lemma turn_passedOver (this : FileSynchronizer) (dir : string)
    (entry : Dirent) (acc : JsMap.t) :
  passedOver sep minimatch path_join path_relative sha256_hex this dir entry ->
  turnOf this dir entry acc = Ok acc.
Proof.
  unfold turn, passedOver. destruct entry as [[name isDir] stat].
  cbn [scanEntries]. cbv zeta.
  intros [H | [[e H] | [H | [restat [content [e [H1 H2]]]]]]].
  - now rewrite H.
  - subst stat. now destruct (shouldIgnore sep minimatch this _ isDir).
  - subst stat. now destruct (shouldIgnore sep minimatch this _ isDir).
  - subst stat. rewrite H2.
    destruct (shouldIgnore sep minimatch this _ isDir); [reflexivity |].
    now destruct (negb _).
Qed.

Lemma scan_ok_height (n : nat) :
  forall node, height node <= n ->
  forall this dir, exists m, scanOf this dir node = Ok m.
Proof.
  induction n as [| n IHn]; intros node Hh this dir.
  - destruct node as [[entries | e] | |];
      try (exists JsMap.empty; reflexivity).
    cbn [height] in Hh. lia.
  - destruct node as [[entries | e] | |];
      try (exists JsMap.empty; reflexivity).
    rewrite generateFileHashes_listing.
    assert (Hsub : forall name b target,
               In (name, b, Ok target) entries -> height target <= n).
    { intros name b target Hin. apply Nat.lt_succ_r.
      eapply Nat.lt_le_trans; [apply (height_entry _ _ _ _ Hin) | exact Hh]. }
    clear Hh. generalize JsMap.empty.
    induction entries as [| [[name isDir] stat] rest IH]; intros acc.
    + now exists acc.
    + assert (Hrest : forall acc', exists m, loopOf this dir rest acc' = Ok m).
      { apply IH. intros n0 b0 t0 H0. apply (Hsub n0 b0 t0). now right. }
      cbn [scanEntries]. cbv zeta.
      destruct (shouldIgnore sep minimatch this _ isDir); [apply Hrest |].
      destruct stat as [target | e]; [| apply Hrest].
      destruct target as [listing | restat content |]; [| | apply Hrest].
      * destruct (negb _); [| apply Hrest].
        destruct (IHn (Directory listing)
                      (Hsub name isDir _ (or_introl eq_refl))
                      this (path_join [dir; name])) as [sub ->].
        apply Hrest.
      * destruct (negb _); [| apply Hrest].
        destruct (hashFile _ _ _ _); apply Hrest.
Qed.

(** X10: a scan never rejects: a directory that cannot be listed, an
    entry whose [fs.stat] fails, a file that cannot be read and the
    error that [hashFile] raises on a directory are all taken in, and a
    map is returned; it is empty when the directory scanned cannot be
    listed. *)
Theorem generateFileHashes_never_rejects
    (this : FileSynchronizer) (dir : string) (node : FsTree) :
  (exists m,
      generateFileHashes sep minimatch path_join path_relative sha256_hex
                         this dir node = Ok m)
  /\ ((forall entries, node <> Directory (Ok entries)) ->
      generateFileHashes sep minimatch path_join path_relative sha256_hex
                         this dir node = Ok JsMap.empty).
Proof.
  split; [apply (scan_ok_height (height node)); lia |].
  apply generateFileHashes_unlisted.
Qed.

Lemma turn_cases (this : FileSynchronizer) (dir : string)
    (name : string) (isDir : bool) (stat : Result FsTree)
    (acc acc' : JsMap.t) :
  turnOf this dir (name, isDir, stat) acc = Ok acc' ->
  acc' = acc
  \/ (exists restat content hash,
         stat = Ok (RegularFile restat content)
         /\ shouldIgnore sep minimatch this
              (path_relative (rootDir this) (path_join [dir; name]))
              isDir = false
         /\ shouldIgnore sep minimatch this
              (path_relative (rootDir this) (path_join [dir; name]))
              false = false
         /\ hashFile sha256_hex (path_join [dir; name]) restat content
            = Ok hash
         /\ acc' = mapSet acc
                     (path_relative (rootDir this) (path_join [dir; name]))
                     hash)
  \/ (exists listing sub,
         stat = Ok (Directory listing)
         /\ shouldIgnore sep minimatch this
              (path_relative (rootDir this) (path_join [dir; name]))
              isDir = false
         /\ shouldIgnore sep minimatch this
              (path_relative (rootDir this) (path_join [dir; name]))
              true = false
         /\ scanOf this (path_join [dir; name]) (Directory listing) = Ok sub
         /\ acc' = mapSetAll acc (JsMap.entries sub)).
Proof.
  unfold turn. cbn [scanEntries]. cbv zeta.
  destruct (shouldIgnore sep minimatch this _ isDir) eqn:E1.
  { intros H. injection H as <-. now left. }
  destruct stat as [target | e].
  2: { intros H. injection H as <-. now left. }
  destruct target as [listing | restat content |].
  - destruct (shouldIgnore sep minimatch this _ true) eqn:E2; cbn [negb].
    { intros H. injection H as <-. now left. }
    destruct (generateFileHashes _ _ _ _ _ _ _ _) as [sub | e] eqn:Es;
      [| discriminate].
    intros H. injection H as <-. right. right.
    exists listing, sub. repeat split; assumption.
  - destruct (shouldIgnore sep minimatch this _ false) eqn:E2; cbn [negb].
    { intros H. injection H as <-. now left. }
    destruct (hashFile _ _ _ _) as [hash | e] eqn:Eh.
    + intros H. injection H as <-. right. left.
      exists restat, content, hash. repeat split; assumption.
    + intros H. injection H as <-. now left.
  - intros H. injection H as <-. now left.
Qed.

Lemma scan_sound_height (this : FileSynchronizer) (n : nat) :
  forall node, height node <= n ->
  forall dir m k h,
    scanOf this dir node = Ok m -> In (k, h) (JsMap.entries m) ->
    reaches sep minimatch path_join path_relative sha256_hex
            this dir node k h.
Proof.
  induction n as [| n IHn]; intros node Hh dir m k h Hscan Hin.
  - destruct node as [[entries | e] | |];
      try (injection Hscan as <-; destruct Hin).
    cbn [height] in Hh. lia.
  - destruct node as [[entries | e] | |];
      try (injection Hscan as <-; destruct Hin).
    rewrite generateFileHashes_listing in Hscan.
    assert (Hsub : forall name b target,
               In (name, b, Ok target) entries -> height target <= n).
    { intros name b target Hi. apply Nat.lt_succ_r.
      eapply Nat.lt_le_trans; [apply (height_entry _ _ _ _ Hi) | exact Hh]. }
    clear Hh.
    assert (Hloop : forall rest acc,
               (forall e, In e rest -> In e entries) ->
               (forall k h, In (k, h) (JsMap.entries acc) ->
                  reaches sep minimatch path_join path_relative sha256_hex
                          this dir (Directory (Ok entries)) k h) ->
               loopOf this dir rest acc = Ok m ->
               reaches sep minimatch path_join path_relative sha256_hex
                       this dir (Directory (Ok entries)) k h).
    { induction rest as [| [[name isDir] stat] rest IH];
        intros acc Hincl Hacc Hrun.
      - injection Hrun as ->. now apply Hacc.
      - rewrite scanEntries_cons in Hrun.
        destruct (turnOf this dir (name, isDir, stat) acc)
          as [acc' |] eqn:Et; [| discriminate].
        apply (IH acc'); [intros e He; apply Hincl; now right | | exact Hrun].
        intros k' h' Hin'.
        destruct (turn_cases _ _ _ _ _ _ _ Et)
          as [-> | [[restat [content [hash [-> [E1 [E2 [Eh ->]]]]]]]
                   | [listing [sub [-> [E1 [E2 [Es ->]]]]]]]].
        + now apply Hacc.
        + destruct (mapSet_In _ _ _ _ Hin') as [Heq | Hold];
            [| now apply Hacc].
          injection Heq as -> ->.
          apply reaches_file with (direntIsDirectory := isDir)
                                  (restat := restat) (content := content);
            try assumption.
          apply Hincl. now left.
        + destruct (mapSetAll_In _ _ _ Hin') as [Hold | Hnew];
            [now apply Hacc |].
          apply reaches_directory with (name := name)
                                       (direntIsDirectory := isDir)
                                       (listing := listing);
            try assumption; [apply Hincl; now left |].
          apply (IHn (Directory listing)
                     (Hsub name isDir _ (Hincl _ (or_introl eq_refl)))
                     _ sub); assumption. }
    apply (Hloop entries JsMap.empty); auto.
    intros k' h' [].
Qed.

(** X11: every entry of the map that a scan returns is a regular file
    that the scan reaches: its key is the relative path of the file, its
    value what [hashFile] gives for it, and neither the file nor a
    directory on the way to it was ignored. *)
Theorem generateFileHashes_only_reached
    (this : FileSynchronizer) (dir : string) (node : FsTree)
    (m : JsMap.t) (k h : string) :
  generateFileHashes sep minimatch path_join path_relative sha256_hex
                     this dir node = Ok m ->
  JsMap.get m k = Some h ->
  reaches sep minimatch path_join path_relative sha256_hex this dir node k h.
Proof.
  intros Hscan Hget. apply get_In in Hget.
  apply (scan_sound_height this (height node) node (le_n _) dir m);
    assumption.
Qed.

Lemma turn_mono (this : FileSynchronizer) (dir : string) (entry : Dirent)
    (acc acc' : JsMap.t) (k : string) :
  turnOf this dir entry acc = Ok acc' ->
  In k (JsMap.keys acc) -> In k (JsMap.keys acc').
Proof.
  destruct entry as [[name isDir] stat]. intros Et Hk.
  destruct (turn_cases _ _ _ _ _ _ _ Et)
    as [-> | [[restat [content [hash [_ [_ [_ [_ ->]]]]]]]
             | [listing [sub [_ [_ [_ [_ ->]]]]]]]].
  - assumption.
  - apply mapSet_keys. now right.
  - apply mapSetAll_keys. now left.
Qed.

Lemma loop_mono (this : FileSynchronizer) (dir : string)
    (rest : list Dirent) (acc m : JsMap.t) (k : string) :
  loopOf this dir rest acc = Ok m ->
  In k (JsMap.keys acc) -> In k (JsMap.keys m).
Proof.
  revert acc. induction rest as [| entry rest IH]; intros acc Hrun Hk.
  - injection Hrun as <-. assumption.
  - rewrite scanEntries_cons in Hrun.
    destruct (turnOf this dir entry acc) as [acc' |] eqn:Et;
      [| discriminate].
    apply (IH acc' Hrun). now apply (turn_mono _ _ _ _ _ _ Et).
Qed.

Lemma loop_member (this : FileSynchronizer) (dir : string)
    (entry : Dirent) (k : string) :
  (forall acc acc', turnOf this dir entry acc = Ok acc' ->
                    In k (JsMap.keys acc')) ->
  forall rest acc m,
    In entry rest -> loopOf this dir rest acc = Ok m ->
    In k (JsMap.keys m).
Proof.
  intros Hturn. induction rest as [| e0 rest IH]; intros acc m Hin Hrun;
    [destruct Hin |].
  rewrite scanEntries_cons in Hrun.
  destruct (turnOf this dir e0 acc) as [acc' |] eqn:Et; [| discriminate].
  destruct Hin as [-> | Hin].
  - apply (loop_mono _ _ _ _ _ _ Hrun). now apply (Hturn acc).
  - now apply (IH acc').
Qed.

Lemma reaches_scanned
    (this : FileSynchronizer) (dir : string) (node : FsTree)
    (k h : string) :
  reaches sep minimatch path_join path_relative sha256_hex this dir node k h ->
  forall m,
    generateFileHashes sep minimatch path_join path_relative sha256_hex
                       this dir node = Ok m ->
    JsMap.has m k = true.
Proof.
  induction 1 as [dir entries name isDir restat content hash Hin E1 E2 Eh
                 | dir entries name isDir listing key hash Hin E1 E2 Hr IH];
    intros m Hscan; rewrite generateFileHashes_listing in Hscan;
    apply has_In.
  - apply (loop_member this dir _ _) with (3 := Hscan) (2 := Hin).
    intros acc acc'. unfold turn. cbn [scanEntries]. cbv zeta.
    rewrite E1, E2, Eh. cbn [negb]. intros H. injection H as <-.
    apply mapSet_keys. now left.
  - apply (loop_member this dir _ _) with (3 := Hscan) (2 := Hin).
    intros acc acc'. unfold turn. cbn [scanEntries]. cbv zeta.
    rewrite E1, E2. cbn [negb].
    destruct (generateFileHashes _ _ _ _ _ _ _ _) as [sub |] eqn:Es;
      [| discriminate].
    intros H. injection H as <-. apply mapSetAll_keys. right.
    fold (JsMap.keys sub). apply has_In. now apply IH.
Qed.

(** X12: a scan misses no file that it reaches: when the scan returns a
    map, every regular file that can be hashed and that, like the
    directories on the way to it, is not ignored has its relative path
    among the keys. *)
Theorem generateFileHashes_all_reached
    (this : FileSynchronizer) (dir : string) (node : FsTree)
    (k h : string) (m : JsMap.t) :
  reaches sep minimatch path_join path_relative sha256_hex this dir node k h ->
  generateFileHashes sep minimatch path_join path_relative sha256_hex
                     this dir node = Ok m ->
  JsMap.has m k = true.
Proof.
  intros Hr Hscan. exact (reaches_scanned this dir node k h Hr m Hscan).
Qed.

Lemma reaches_not_ignored (this : FileSynchronizer) (dir : string)
    (node : FsTree) (k h : string) :
  reaches sep minimatch path_join path_relative sha256_hex this dir node k h ->
  shouldIgnore sep minimatch this k false = false.
Proof. induction 1; assumption. Qed.

Lemma generateFileHashes_not_ignored_aux
    (this : FileSynchronizer) (dir : string) (node : FsTree)
    (m : JsMap.t) (k : string) :
  scanOf this dir node = Ok m ->
  JsMap.has m k = true ->
  shouldIgnore sep minimatch this k false = false
  /\ hasHiddenPart sep k = false.
Proof.
  intros Hscan Hhas. apply get_has in Hhas. destruct Hhas as [h Hget].
  apply get_In in Hget.
  assert (Hi : shouldIgnore sep minimatch this k false = false).
  { apply (reaches_not_ignored this dir node k h).
    apply (scan_sound_height this (height node) node (le_n _) dir m);
      assumption. }
  split; [exact Hi |].
  unfold shouldIgnore in Hi.
  now destruct (hasHiddenPart sep k).
Qed.

(** X13: no key of the map that a scan returns is ignored as a file
    under the patterns of the object, and none has a segment that starts
    with a dot. *)
Theorem generateFileHashes_not_ignored
    (this : FileSynchronizer) (dir : string) (node : FsTree)
    (m : JsMap.t) (k : string) :
  generateFileHashes sep minimatch path_join path_relative sha256_hex
                     this dir node = Ok m ->
  JsMap.has m k = true ->
  shouldIgnore sep minimatch this k false = false
  /\ hasHiddenPart sep k = false.
Proof.
  intros Hscan Hhas. split.
  - apply (generateFileHashes_not_ignored_aux this dir node m k);
      assumption.
  - apply (generateFileHashes_not_ignored_aux this dir node m k);
      assumption.
Qed.

(** X14: an entry that the loop passes over counts for nothing: the
    scan of a listing with such an entry returns what the scan of the
    listing without it returns, whatever lies beneath the entry. *)
Theorem generateFileHashes_passedOver
    (this : FileSynchronizer) (dir : string) (pre post : list Dirent)
    (entry : Dirent) :
  passedOver sep minimatch path_join path_relative sha256_hex
             this dir entry ->
  generateFileHashes sep minimatch path_join path_relative sha256_hex
                     this dir (Directory (Ok (pre ++ entry :: post)))
  = generateFileHashes sep minimatch path_join path_relative sha256_hex
                       this dir (Directory (Ok (pre ++ post))).
Proof.
  intros Hp. rewrite !generateFileHashes_listing, !scanEntries_app.
  destruct (loopOf this dir pre JsMap.empty) as [acc |]; [| reflexivity].
  now rewrite scanEntries_cons, turn_passedOver.
Qed.

End ScanFacts.

(** The scan of a directory that cannot be listed. *)
Lemma generateFileHashes_never_rejects_witness :
  generateFileHashes "/" Minimatch.minimatch joinSlash relativeSlash (fun s => s)
    sampleSynchronizer "/repo"
    (Directory (Throw (mkFsError "EACCES" "permission denied")))
  = Ok JsMap.empty.
Proof.
  apply (proj2 (generateFileHashes_never_rejects
                  "/" Minimatch.minimatch joinSlash relativeSlash (fun s => s)
                  sampleSynchronizer "/repo"
                  (Directory
                     (Throw (mkFsError "EACCES" "permission denied"))))).
  intros entries. discriminate.
Defined.

(** The entry [src/main.ts] of the scan of the sample repository. *)
Lemma generateFileHashes_only_reached_witness :
  reaches "/" Minimatch.minimatch joinSlash relativeSlash (fun s => s)
          sampleSynchronizer "/repo" sampleTree "src/main.ts" "M".
Proof.
  apply (generateFileHashes_only_reached
           "/" Minimatch.minimatch joinSlash relativeSlash (fun s => s)
           sampleSynchronizer "/repo" sampleTree sampleHashes
           "src/main.ts" "M"); vm_compute; reflexivity.
Defined.

(** The file [main.ts] in the directory [src] of the sample
    repository. *)
Lemma generateFileHashes_all_reached_witness :
  JsMap.has sampleHashes "src/main.ts" = true.
Proof.
  apply (generateFileHashes_all_reached
           "/" Minimatch.minimatch joinSlash relativeSlash (fun s => s)
           sampleSynchronizer "/repo" sampleTree "src/main.ts" "M"
           sampleHashes).
  - apply (reaches_directory
             "/" Minimatch.minimatch joinSlash relativeSlash (fun s => s)
             sampleSynchronizer "/repo" (sampleBefore ++ gitEntry :: sampleAfter)
             "src" true (Ok [("main.ts", false, plainFile "M")])
             "src/main.ts" "M").
    + right. right. left. reflexivity.
    + vm_compute. reflexivity.
    + vm_compute. reflexivity.
    + apply (reaches_file
               "/" Minimatch.minimatch joinSlash relativeSlash (fun s => s)
               sampleSynchronizer "/repo/src"
               [("main.ts", false, plainFile "M")] "main.ts" false
               (Ok StatFile) (Ok "M") "M").
      * left. reflexivity.
      * vm_compute. reflexivity.
      * vm_compute. reflexivity.
      * reflexivity.
  - vm_compute. reflexivity.
Defined.

(** The key [a.txt] of the scan of the sample repository. *)
Lemma generateFileHashes_not_ignored_witness :
  shouldIgnore "/" Minimatch.minimatch sampleSynchronizer "a.txt" false
  = false
  /\ hasHiddenPart "/" "a.txt" = false.
Proof.
  apply (generateFileHashes_not_ignored
           "/" Minimatch.minimatch joinSlash relativeSlash (fun s => s)
           sampleSynchronizer "/repo" sampleTree sampleHashes "a.txt");
    vm_compute; reflexivity.
Defined.

(** The hidden directory [.git] of the sample repository. *)
Lemma generateFileHashes_passedOver_witness :
  generateFileHashes "/" Minimatch.minimatch joinSlash relativeSlash (fun s => s)
    sampleSynchronizer "/repo" sampleTree
  = generateFileHashes "/" Minimatch.minimatch joinSlash relativeSlash (fun s => s)
      sampleSynchronizer "/repo" (Directory (Ok (sampleBefore ++ sampleAfter))).
Proof.
  apply (generateFileHashes_passedOver
           "/" Minimatch.minimatch joinSlash relativeSlash (fun s => s)
           sampleSynchronizer "/repo" sampleBefore sampleAfter gitEntry).
  vm_compute. left. reflexivity.
Defined.

(** ** Snapshots: what is saved is what is loaded *)

Lemma setEntries_fresh (l : list (string * string)) (k v : string) :
  ~ In k (map fst l) -> setEntries l k v = l ++ [(k, v)].
Proof.
  induction l as [| e r IH]; cbn [setEntries map In app]; [reflexivity |].
  intros Hk. destruct (JsMap.keyIs k e) eqn:E.
  - apply String.eqb_eq in E. tauto.
  - rewrite IH; [reflexivity | tauto].
Qed.

Lemma mapSetAll_fresh (l : list (string * string)) (acc : JsMap.t) :
  NoDup (map fst (JsMap.entries acc ++ l)) ->
  JsMap.entries (mapSetAll acc l) = JsMap.entries acc ++ l.
Proof.
  revert acc. induction l as [| [k v] l IH]; intros acc Hnd;
    cbn [mapSetAll fold_left].
  - now rewrite app_nil_r.
  - change (fold_left (fun m0 '(p0, h0) => mapSet m0 p0 h0) l (mapSet acc k v))
      with (mapSetAll (mapSet acc k v) l).
    assert (Hset : JsMap.entries (mapSet acc k v)
                   = JsMap.entries acc ++ [(k, v)]).
    { rewrite mapSet_entries. apply setEntries_fresh.
      rewrite map_app in Hnd. apply NoDup_remove_2 in Hnd.
      intro Hin. apply Hnd. apply in_or_app. now left. }
    rewrite IH; rewrite Hset, <- app_assoc; [reflexivity | exact Hnd].
Qed.

(** A map filled from its own entries, in their order, is the map. *)
Lemma mapSetAll_entries (m : JsMap.t) :
  mapSetAll JsMap.empty (JsMap.entries m) = m.
Proof.
  apply JsMap_ext. rewrite mapSetAll_fresh; [reflexivity |].
  cbn [JsMap.entries JsMap.empty app]. apply keys_NoDup.
Qed.

Lemma definedPairs_snapshot (this : FileSynchronizer) :
  definedPairs (doc_fileHashes (snapshotOf this))
  = Some (JsMap.entries (fileHashes this)).
Proof.
  unfold snapshotOf. cbn [doc_fileHashes]. unfold JsMap.keys.
  rewrite map_map.
  assert (H : forall l,
             (forall e, In e l -> In e (JsMap.entries (fileHashes this))) ->
             definedPairs
               (map (fun x => (fst x, JsMap.get (fileHashes this) (fst x))) l)
             = Some l).
  { induction l as [| [k v] l IH]; intros Hin; [reflexivity |].
    cbn [map definedPairs fst].
    rewrite (proj2 (get_In _ k v) (Hin _ (or_introl eq_refl))).
    rewrite IH; [reflexivity | intros e He; apply Hin; now right]. }
  apply H. auto.
Qed.

Lemma readSnapshot_fileAt (path : string) (fs : FileSystem)
    (doc : SnapshotDoc) :
  fileAt fs path = Some doc -> readSnapshot None path fs = (Ok doc, fs).
Proof.
  unfold fileAt, readSnapshot.
  destruct (find _ (files fs)) as [f |]; [| discriminate].
  cbn [option_map]. intros H. now injection H as ->.
Qed.

Lemma readSnapshot_missing (path : string) (fs : FileSystem) :
  fileAt fs path = None ->
  readSnapshot None path fs
  = (Throw (mkFsError "ENOENT" "no such file or directory"), fs).
Proof.
  unfold fileAt, readSnapshot.
  destruct (find _ (files fs)) as [f |]; [discriminate | reflexivity].
Qed.

Section InitializeFacts.

Variable sep : ascii.
Variable minimatch : string -> string -> MinimatchOptions -> bool.
Variable path_join : list string -> string.
Variable path_relative : string -> string -> string.
Variable sha256_hex : string -> string.
Variable path_dirname : string -> string.
Variable digest : string -> string.

(** X15: what [saveSnapshot] wrote, [loadSnapshot] reads back: an
    object with the same snapshot path afterwards holds the map that was
    saved, with its entries in the same order, and the tree that was
    saved; nothing is scanned and nothing is written. *)
Theorem saveSnapshot_loadSnapshot
    (this that : FileSynchronizer) (fs fs' : FileSystem) (tree : FsTree) :
  saveSnapshot path_dirname (this, fs) = (Ok tt, (this, fs')) ->
  snapshotPath that = snapshotPath this ->
  loadSnapshot sep minimatch path_join path_relative sha256_hex
               path_dirname digest tree None (that, fs')
  = Some (Ok tt,
          (mkSync (fileHashes this) (merkleDAG this) (rootDir that)
                  (snapshotPath that) (ignorePatterns that),
           fs')).
Proof.
  rewrite saveSnapshot_unfold. intros Hsave Hpath.
  destruct (mkdir _ fs) as [[[] | e] fs1]; [| discriminate].
  destruct (writeFile _ _ fs1) as [r fs2] eqn:Ew.
  injection Hsave as -> ->.
  destruct (fileAt_writeFile _ _ _ _ Ew) as [Hat _].
  unfold loadSnapshot. cbn [fst snd]. rewrite Hpath.
  rewrite (readSnapshot_fileAt _ _ _ Hat).
  rewrite definedPairs_snapshot, mapSetAll_entries. reflexivity.
Qed.

(** X16: with a snapshot on the disk, [initialize] takes the map from
    its pairs and builds the tree anew from that map: the tree of the
    document does not come into the object, the directory is not
    scanned and the disk is left as it is. *)
Theorem initialize_from_snapshot
    (this : FileSynchronizer) (fs : FileSystem) (tree : FsTree)
    (doc : SnapshotDoc) (pairs : list (string * string)) :
  fileAt fs (snapshotPath this) = Some doc ->
  definedPairs (doc_fileHashes doc) = Some pairs ->
  initialize sep minimatch path_join path_relative sha256_hex
             path_dirname digest tree None (this, fs)
  = Some (Ok tt,
          (holding digest this (mapSetAll JsMap.empty pairs), fs)).
Proof.
  intros Hat Hpairs. unfold initialize, loadSnapshot. cbn [fst snd].
  rewrite (readSnapshot_fileAt _ _ _ Hat), Hpairs. reflexivity.
Qed.

(** X17: without a snapshot on the disk, and the disk taking the
    directory and the file, [initialize] scans the tree, holds the map
    of the scan and its tree, and writes them as the snapshot. *)
Theorem initialize_first_run
    (this : FileSynchronizer) (fs : FileSystem) (tree : FsTree)
    (hashes : JsMap.t) :
  fileAt fs (snapshotPath this) = None ->
  failure fs Mkdir (path_dirname (snapshotPath this)) = None ->
  failure fs WriteFile (snapshotPath this) = None ->
  generateFileHashes sep minimatch path_join path_relative sha256_hex
                     this (rootDir this) tree = Ok hashes ->
  exists fs',
    initialize sep minimatch path_join path_relative sha256_hex
               path_dirname digest tree None (this, fs)
    = Some (Ok tt, (holding digest this hashes, fs'))
    /\ fileAt fs' (snapshotPath this)
       = Some (snapshotOf (holding digest this hashes))
    /\ (forall other, other <> snapshotPath this ->
                      fileAt fs' other = fileAt fs other).
Proof.
  intros Hat Hmk Hwr Hscan. unfold initialize, loadSnapshot. cbn [fst snd].
  rewrite (readSnapshot_missing _ _ Hat). cbn [code String.eqb Ascii.eqb
    Bool.eqb andb]. rewrite Hscan.
  change (mkSync hashes (buildMerkleDAG digest hashes) (rootDir this)
                 (snapshotPath this) (ignorePatterns this))
    with (holding digest this hashes).
  rewrite saveSnapshot_unfold.
  change (snapshotPath (holding digest this hashes))
    with (snapshotPath this).
  destruct (mkdir (path_dirname (snapshotPath this)) fs) as [r fs1] eqn:Em.
  destruct (fileAt_mkdir _ _ _ _ Em) as [Hfiles Hfail].
  assert (Hr : r = Ok tt).
  { unfold mkdir in Em. rewrite Hmk in Em. now injection Em as <- _. }
  subst r.
  destruct (writeFile (snapshotPath this)
              (snapshotOf (holding digest this hashes)) fs1)
    as [r2 fs2] eqn:Ew.
  assert (Hr2 : r2 = Ok tt).
  { unfold writeFile in Ew. rewrite Hfail, Hwr in Ew.
    now injection Ew as <- _. }
  subst r2. exists fs2. split; [reflexivity |].
  destruct (fileAt_writeFile _ _ _ _ Ew) as [Hnew [Hother _]].
  split; [exact Hnew |].
  intros other Hne. rewrite (Hother other Hne).
  unfold fileAt. now rewrite Hfiles.
Qed.

(** X18: a failure of the read of the snapshot other than ENOENT is
    thrown by [initialize] as it is; the object and the disk are as
    before, and the directory is not scanned. *)
Theorem initialize_read_failure
    (w : World) (tree : FsTree) (e : FsError) :
  code e <> "ENOENT" ->
  initialize sep minimatch path_join path_relative sha256_hex
             path_dirname digest tree (Some e) w
  = Some (Throw e, w).
Proof.
  intros Hcode. destruct w as [this fs].
  unfold initialize, loadSnapshot, readSnapshot. cbn [fst snd].
  apply String.eqb_neq in Hcode. now rewrite Hcode.
Qed.

Lemma checkForChangesOn_same_scan
    (tree : FsTree) (this : FileSynchronizer) (fs : FileSystem) :
  treeMatches digest this ->
  generateFileHashes sep minimatch path_join path_relative sha256_hex
                     this (rootDir this) tree = Ok (fileHashes this) ->
  checkForChangesOn sep minimatch path_join path_relative sha256_hex
                    path_dirname digest tree (this, fs)
  = (Ok noChanges, (this, fs)).
Proof.
  intros Hinv Hscan. unfold checkForChangesOn. cbn [fst].
  rewrite Hscan. now apply checkForChanges_same_tree.
Qed.

Lemma shouldIgnore_ext (this this' : FileSynchronizer) (p : string)
    (d : bool) :
  ignorePatterns this = ignorePatterns this' ->
  shouldIgnore sep minimatch this p d = shouldIgnore sep minimatch this' p d.
Proof. unfold shouldIgnore. now intros ->. Qed.

Lemma scan_ext (this this' : FileSynchronizer) :
  rootDir this = rootDir this' ->
  ignorePatterns this = ignorePatterns this' ->
  forall n node, height node <= n ->
  forall dir,
    generateFileHashes sep minimatch path_join path_relative sha256_hex
                       this dir node
    = generateFileHashes sep minimatch path_join path_relative sha256_hex
                         this' dir node.
Proof.
  intros Hroot Hpat. induction n as [| n IHn]; intros node Hh dir.
  - destruct node as [[entries | e] | |]; try reflexivity.
    cbn [height] in Hh. lia.
  - destruct node as [[entries | e] | |]; try reflexivity.
    rewrite !generateFileHashes_listing.
    assert (Hsub : forall name b target,
               In (name, b, Ok target) entries -> height target <= n).
    { intros name b target Hi. apply Nat.lt_succ_r.
      eapply Nat.lt_le_trans; [apply (height_entry _ _ _ _ Hi) | exact Hh]. }
    clear Hh. generalize JsMap.empty.
    induction entries as [| [[name isDir] stat] rest IH]; intros acc;
      [reflexivity |].
    assert (Hrest : forall acc',
               scanEntries sep minimatch path_join path_relative sha256_hex
                           this dir rest acc'
               = scanEntries sep minimatch path_join path_relative
                             sha256_hex this' dir rest acc').
    { apply IH. intros n0 b0 t0 H0. apply (Hsub n0 b0 t0). now right. }
    cbn [scanEntries]. cbv zeta. rewrite <- Hroot.
    rewrite !(shouldIgnore_ext this this') by assumption.
    destruct (shouldIgnore sep minimatch this' _ isDir); [apply Hrest |].
    destruct stat as [target | e]; [| apply Hrest].
    destruct target as [listing | restat content |]; [| | apply Hrest].
    + destruct (negb _); [| apply Hrest].
      rewrite (IHn (Directory listing)
                   (Hsub name isDir _ (or_introl eq_refl))).
      destruct (generateFileHashes _ _ _ _ _ this' _ _);
        [apply Hrest | reflexivity].
    + destruct (negb _); [| apply Hrest].
      destruct (hashFile _ _ _ _); apply Hrest.
Qed.

(** X19: a first [initialize], which finds no snapshot, followed by a
    [checkForChanges] on the same tree: the call returns the empty diff
    and leaves the object and the disk as [initialize] left them. *)
Theorem initialize_then_checkForChanges
    (this : FileSynchronizer) (fs : FileSystem) (tree : FsTree)
    (w1 : World) :
  fileAt fs (snapshotPath this) = None ->
  initialize sep minimatch path_join path_relative sha256_hex
             path_dirname digest tree None (this, fs)
  = Some (Ok tt, w1) ->
  checkForChangesOn sep minimatch path_join path_relative sha256_hex
                    path_dirname digest tree w1
  = (Ok noChanges, w1).
Proof.
  intros Hat. unfold initialize, loadSnapshot. cbn [fst snd].
  rewrite (readSnapshot_missing _ _ Hat).
  cbn [code String.eqb Ascii.eqb Bool.eqb andb].
  destruct (generateFileHashes sep minimatch path_join path_relative
              sha256_hex this (rootDir this) tree)
    as [hashes | e] eqn:Hscan; [| discriminate].
  rewrite saveSnapshot_unfold.
  destruct (mkdir _ fs) as [[[] | e] fs1]; [| discriminate].
  destruct (writeFile _ _ fs1) as [[[] | e] fs2]; [| discriminate].
  cbn [fst snd]. intros H. injection H as <-.
  apply checkForChangesOn_same_scan; [reflexivity |].
  cbn [rootDir fileHashes]. rewrite <- Hscan.
  apply (scan_ext _ this) with (n := height tree);
    [reflexivity | reflexivity | apply le_n].
Qed.

(** X20: what a call of [checkForChanges] that scans the tree reports
    as added or as modified is never a path that the patterns of the
    object ignore, nor a path with a hidden segment. *)
Theorem checkForChangesOn_reports_tracked
    (tree : FsTree) (w : World) (d : Changes) (p : string) :
  fst (checkForChangesOn sep minimatch path_join path_relative sha256_hex
                         path_dirname digest tree w) = Ok d ->
  In p (added d) \/ In p (modified d) ->
  shouldIgnore sep minimatch (fst w) p false = false
  /\ hasHiddenPart sep p = false.
Proof.
  unfold checkForChangesOn. intros Hd Hp.
  destruct (generateFileHashes sep minimatch path_join path_relative
              sha256_hex (fst w) (rootDir (fst w)) tree)
    as [hashes | e] eqn:Hscan; [| discriminate].
  apply (generateFileHashes_not_ignored_aux sep minimatch path_join
           path_relative sha256_hex (fst w) (rootDir (fst w)) tree hashes);
    [assumption |].
  destruct (checkForChanges_returns path_dirname digest hashes w d Hd)
    as [-> | ->]; [destruct Hp as [[] | []] |].
  destruct Hp as [Hp | Hp].
  - apply added_iff in Hp. tauto.
  - apply modified_iff in Hp. destruct Hp as [h [h' [Hn _]]].
    apply get_has. now exists h.
Qed.

End InitializeFacts.

(** The snapshot of [readyA], saved on an empty disk and loaded by a
    fresh synchronizer with the same snapshot path. *)
Lemma saveSnapshot_loadSnapshot_witness :
  loadSnapshot "/" Minimatch.minimatch joinSlash relativeSlash (fun s => s)
    dirnameSlash (fun s => s)
    sampleTree None (sampleSynchronizer, savedDisk)
  = Some (Ok tt,
          (mkSync stateA (buildMerkleDAG (fun s => s) stateA) "/repo"
                  "/home/.context/merkle/0.json" ["node_modules/"],
           savedDisk)).
Proof.
  apply (saveSnapshot_loadSnapshot "/" Minimatch.minimatch joinSlash relativeSlash (fun s => s)
    dirnameSlash (fun s => s)
           readyA sampleSynchronizer emptyDisk savedDisk sampleTree);
    reflexivity.
Defined.

(** [initialize] of a fresh synchronizer on the disk that holds the
    snapshot of [readyA]. *)
Lemma initialize_from_snapshot_witness :
  initialize "/" Minimatch.minimatch joinSlash relativeSlash (fun s => s)
    dirnameSlash (fun s => s)
    sampleTree None (sampleSynchronizer, savedDisk)
  = Some (Ok tt,
          (holding (fun s => s) sampleSynchronizer
                   (mapSetAll JsMap.empty [("a", "h")]),
           savedDisk)).
Proof.
  apply (initialize_from_snapshot "/" Minimatch.minimatch joinSlash relativeSlash (fun s => s)
    dirnameSlash (fun s => s)
           sampleSynchronizer savedDisk sampleTree (snapshotOf readyA)
           [("a", "h")]); reflexivity.
Defined.

(** [initialize] of a fresh synchronizer on the sample repository, from
    an empty disk. *)
Lemma initialize_first_run_witness :
  exists fs',
    initialize "/" Minimatch.minimatch joinSlash relativeSlash (fun s => s)
    dirnameSlash (fun s => s)
      sampleTree None (sampleSynchronizer, emptyDisk)
    = Some (Ok tt, (holding (fun s => s) sampleSynchronizer sampleHashes, fs'))
    /\ fileAt fs' "/home/.context/merkle/0.json"
       = Some (snapshotOf
                 (holding (fun s => s) sampleSynchronizer sampleHashes))
    /\ (forall other, other <> "/home/.context/merkle/0.json" ->
                      fileAt fs' other = fileAt emptyDisk other).
Proof.
  apply (initialize_first_run "/" Minimatch.minimatch joinSlash relativeSlash (fun s => s)
    dirnameSlash (fun s => s)
           sampleSynchronizer emptyDisk sampleTree sampleHashes);
    vm_compute; reflexivity.
Defined.

(** A read of the snapshot that the platform refuses. *)
Lemma initialize_read_failure_witness :
  initialize "/" Minimatch.minimatch joinSlash relativeSlash (fun s => s)
    dirnameSlash (fun s => s)
    sampleTree (Some (mkFsError "EACCES" "permission denied"))
    (sampleSynchronizer, emptyDisk)
  = Some (Throw (mkFsError "EACCES" "permission denied"),
          (sampleSynchronizer, emptyDisk)).
Proof.
  apply (initialize_read_failure "/" Minimatch.minimatch joinSlash relativeSlash (fun s => s)
    dirnameSlash (fun s => s)
           (sampleSynchronizer, emptyDisk) sampleTree
           (mkFsError "EACCES" "permission denied")).
  cbn [code]. discriminate.
Defined.

(** A first [initialize] on the sample repository, then a call of
    [checkForChanges]. *)
Lemma initialize_then_checkForChanges_witness :
  checkForChangesOn "/" Minimatch.minimatch joinSlash relativeSlash (fun s => s)
    dirnameSlash (fun s => s)
    sampleTree
    (holding (fun s => s) sampleSynchronizer sampleHashes, scannedDisk)
  = (Ok noChanges,
     (holding (fun s => s) sampleSynchronizer sampleHashes, scannedDisk)).
Proof.
  apply (initialize_then_checkForChanges "/" Minimatch.minimatch joinSlash relativeSlash (fun s => s)
    dirnameSlash (fun s => s)
           sampleSynchronizer emptyDisk sampleTree
           (holding (fun s => s) sampleSynchronizer sampleHashes,
            scannedDisk));
    vm_compute; reflexivity.
Defined.

(** The first call of [checkForChanges] of a fresh synchronizer on the
    sample repository, which reports [a.txt] and [src/main.ts] as
    added. *)
Lemma checkForChangesOn_reports_tracked_witness :
  shouldIgnore "/" Minimatch.minimatch sampleSynchronizer "src/main.ts"
               false = false
  /\ hasHiddenPart "/" "src/main.ts" = false.
Proof.
  apply (checkForChangesOn_reports_tracked "/" Minimatch.minimatch joinSlash relativeSlash (fun s => s)
    dirnameSlash (fun s => s)
           sampleTree (sampleSynchronizer, emptyDisk)
           (mkChanges ["a.txt"; "src/main.ts"] [] []) "src/main.ts").
  - vm_compute. reflexivity.
  - left. right. left. reflexivity.
Defined.

(** ** Removing the snapshot *)

Lemma fileAt_hasFile (fs : FileSystem) (path : string) :
  fileAt fs path = None <-> hasFile fs path = false.
Proof.
  unfold fileAt, hasFile.
  induction (files fs) as [| f l IH]; cbn [find existsb]; [tauto |].
  destruct (fst f =? path)%string; cbn [orb option_map]; [| exact IH].
  split; discriminate.
Qed.

Lemma fileAt_removed (path other : string) (l : list (string * SnapshotDoc)) :
  option_map snd
    (find (fun f => (fst f =? other)%string)
          (filter (fun f => negb (fst f =? path)%string) l))
  = if (other =? path)%string then None
    else option_map snd (find (fun f => (fst f =? other)%string) l).
Proof.
  induction l as [| f l IH]; cbn [filter find].
  - now destruct (other =? path)%string.
  - destruct (String.eqb_spec (fst f) path) as [Hf | Hf]; cbn [negb find].
    + rewrite IH. destruct (String.eqb_spec other path) as [-> | Ho];
        [reflexivity |].
      destruct (String.eqb_spec (fst f) other) as [Hfo | _];
        [congruence | reflexivity].
    + destruct (String.eqb_spec (fst f) other) as [Hfo | _]; [| exact IH].
      destruct (String.eqb_spec other path) as [-> | _];
        [congruence | reflexivity].
Qed.

Section DeleteSnapshotRemoves.

Variable homedir : string.
Variable path_join : list string -> string.
Variable path_resolve : string -> string.
Variable md5_hex : string -> string.

(** X21: when the platform does not refuse the removal,
    [deleteSnapshot] returns normally whether the snapshot of the root
    is there or not; afterwards that file, whose path is the one the
    constructor gives an object for the same root, is not there, every
    other file is as it was, and a second call returns normally and
    changes nothing. *)
Theorem deleteSnapshot_removes
    (codebasePath : string) (patterns : list string) (fs : FileSystem) :
  failure fs Unlink (getSnapshotPath homedir path_join path_resolve md5_hex
                                     codebasePath) = None ->
  exists fs',
    deleteSnapshot homedir path_join path_resolve md5_hex codebasePath fs
    = (Ok tt, fs')
    /\ fileAt fs'
         (snapshotPath (newFileSynchronizer homedir path_join path_resolve
                          md5_hex codebasePath patterns)) = None
    /\ (forall other,
           other <> getSnapshotPath homedir path_join path_resolve md5_hex
                                    codebasePath ->
           fileAt fs' other = fileAt fs other)
    /\ deleteSnapshot homedir path_join path_resolve md5_hex codebasePath fs'
       = (Ok tt, fs').
Proof.
  intros Hfail. cbn [newFileSynchronizer snapshotPath].
  rewrite deleteSnapshot_unfold. unfold unlink at 1. rewrite Hfail.
  destruct (hasFile fs _) eqn:Hhas.
  - eexists. split; [reflexivity |].
    assert (Hgone : fileAt
                      (mkFs (filter (fun f => negb (fst f =? getSnapshotPath
                               homedir path_join path_resolve md5_hex
                               codebasePath)%string) (files fs))
                            (directories fs) (failure fs))
                      (getSnapshotPath homedir path_join path_resolve md5_hex
                                       codebasePath) = None).
    { unfold fileAt. cbn [files]. rewrite fileAt_removed.
      now rewrite String.eqb_refl. }
    split; [exact Hgone |]. split.
    + intros other Hne. unfold fileAt. cbn [files].
      rewrite fileAt_removed. apply String.eqb_neq in Hne.
      now rewrite Hne.
    + rewrite deleteSnapshot_unfold. unfold unlink. cbn [failure].
      rewrite Hfail. apply fileAt_hasFile in Hgone. now rewrite Hgone.
  - exists fs. cbn [code String.eqb Ascii.eqb Bool.eqb andb].
    split; [reflexivity |]. split; [now apply fileAt_hasFile |].
    split; [reflexivity |].
    rewrite deleteSnapshot_unfold. unfold unlink. now rewrite Hfail, Hhas.
Qed.

End DeleteSnapshotRemoves.

(** Removal of the snapshot of [/repo] from a disk that holds it. *)
Lemma deleteSnapshot_removes_witness :
  exists fs',
    deleteSnapshot "/home/u" joinSlash (fun s => s) (fun s => s) "/repo"
                   homeDisk = (Ok tt, fs')
    /\ fileAt fs'
         (snapshotPath (newFileSynchronizer "/home/u" joinSlash (fun s => s)
                          (fun s => s) "/repo" [])) = None
    /\ (forall other,
           other <> getSnapshotPath "/home/u" joinSlash (fun s => s)
                                    (fun s => s) "/repo" ->
           fileAt fs' other = fileAt homeDisk other)
    /\ deleteSnapshot "/home/u" joinSlash (fun s => s) (fun s => s) "/repo"
                      fs' = (Ok tt, fs').
Proof.
  apply (deleteSnapshot_removes "/home/u" joinSlash (fun s => s)
           (fun s => s) "/repo" [] homeDisk).
  reflexivity.
Defined.

(** ** More on path filtering *)

Section PathMatcherMore.

Variable sep : ascii.
Variable minimatch : string -> string -> MinimatchOptions -> bool.

Lemma existsb_members (f : string -> bool) (l1 l2 : list string) :
  (forall x, In x l1 -> In x l2) -> existsb f l1 = true -> existsb f l2 = true.
Proof.
  intros Hincl H. apply existsb_exists in H. destruct H as [x [Hin Hx]].
  apply existsb_exists. exists x. auto.
Qed.

Lemma shouldIgnore_mono
    (this : FileSynchronizer) (patterns : list string)
    (relativePath : string) (isDirectory : bool) :
  (forall raw, In raw (ignorePatterns this) -> In raw patterns) ->
  shouldIgnore sep minimatch this relativePath isDirectory = true ->
  shouldIgnore sep minimatch (withPatterns this patterns) relativePath
               isDirectory = true.
Proof.
  intros Hincl. unfold shouldIgnore. cbn [withPatterns ignorePatterns].
  destruct (hasHiddenPart sep relativePath); [reflexivity |].
  destruct (ignorePatterns this) as [| r0 l0] eqn:E0; [discriminate |].
  cbn [List.length Nat.eqb].
  destruct patterns as [| r1 l1];
    [exfalso; apply (Hincl r0); now left |].
  cbn [List.length Nat.eqb].
  destruct (JsString.isEmpty (normalizePath relativePath)); [discriminate |].
  apply existsb_members. exact Hincl.
Qed.

(** X22: [shouldIgnore] reads the patterns as a set: a path ignored
    under a list is ignored under every list that holds the same
    patterns and more, and two lists that hold the same patterns, in
    whatever order and however often, give the same answer. *)
Theorem shouldIgnore_more_patterns
    (this : FileSynchronizer) (patterns : list string)
    (relativePath : string) (isDirectory : bool) :
  ((forall raw, In raw (ignorePatterns this) -> In raw patterns) ->
   shouldIgnore sep minimatch this relativePath isDirectory = true ->
   shouldIgnore sep minimatch (withPatterns this patterns) relativePath
                isDirectory = true)
  /\ ((forall raw, In raw (ignorePatterns this) <-> In raw patterns) ->
      shouldIgnore sep minimatch (withPatterns this patterns) relativePath
                   isDirectory
      = shouldIgnore sep minimatch this relativePath isDirectory).
Proof.
  split; [apply shouldIgnore_mono |].
  intros Hsame.
  destruct (shouldIgnore sep minimatch this relativePath isDirectory) eqn:E.
  - apply shouldIgnore_mono; [apply Hsame | exact E].
  - destruct (shouldIgnore sep minimatch (withPatterns this patterns)
                relativePath isDirectory) eqn:E'; [| reflexivity].
    apply (shouldIgnore_mono _ (ignorePatterns this)) in E';
      [| apply Hsame].
    assert (Hthis : withPatterns (withPatterns this patterns)
                                 (ignorePatterns this) = this)
      by now destruct this.
    rewrite Hthis in E'. congruence.
Qed.

Ltac split_ifs :=
  repeat match goal with
         | |- context [if ?c then _ else _] =>
             match c with
             | context [if _ then _ else _] => fail 1
             | _ => destruct c eqn:?
             end
         end.

Lemma matchGitignorePattern_file_directory
    (normalizedPath pws pws' rawPattern : string) :
  matchGitignorePattern minimatch normalizedPath pws rawPattern false = true ->
  matchGitignorePattern minimatch normalizedPath pws' rawPattern true = true.
Proof.
  unfold matchGitignorePattern. cbv zeta. cbn [andb].
  destruct (JsString.isEmpty rawPattern || JsString.startsWith rawPattern "#");
    [discriminate |].
  destruct (JsString.isEmpty (JsString.trim rawPattern)); [discriminate |].
  destruct (JsString.startsWith (JsString.trim rawPattern) "!");
    [discriminate |].
  destruct (JsString.endsWith (JsString.trim rawPattern) "/");
    [| exact (fun H => H)].
  destruct (JsString.startsWith (JsString.trim rawPattern) "/");
    cbn [negb andb]; intros H; split_ifs; try reflexivity;
    try discriminate; congruence.
Qed.

Lemma matchGitignorePattern_no_directory_pattern
    (normalizedPath pws pws' rawPattern : string) (d d' : bool) :
  JsString.endsWith (JsString.trim rawPattern) "/" = false ->
  matchGitignorePattern minimatch normalizedPath pws rawPattern d
  = matchGitignorePattern minimatch normalizedPath pws' rawPattern d'.
Proof.
  unfold matchGitignorePattern. cbv zeta. intros ->. reflexivity.
Qed.

(** X23: a path that is ignored as a file is ignored as a directory; and
    when no pattern, once trimmed, ends with a slash, the two answers
    are the same. *)
Theorem shouldIgnore_file_directory
    (this : FileSynchronizer) (relativePath : string) :
  (shouldIgnore sep minimatch this relativePath false = true ->
   shouldIgnore sep minimatch this relativePath true = true)
  /\ ((forall raw, In raw (ignorePatterns this) ->
                   JsString.endsWith (JsString.trim raw) "/" = false) ->
      shouldIgnore sep minimatch this relativePath true
      = shouldIgnore sep minimatch this relativePath false).
Proof.
  unfold shouldIgnore.
  destruct (hasHiddenPart sep relativePath); [now split |].
  destruct (_ =? 0)%nat; [now split |].
  destruct (JsString.isEmpty (normalizePath relativePath)); [now split |].
  split.
  - intros H. apply existsb_exists in H. destruct H as [raw [Hin Hm]].
    apply existsb_exists. exists raw. split; [assumption |].
    now apply matchGitignorePattern_file_directory
      with (pws := normalizePath relativePath).
  - intros Hnone. induction (ignorePatterns this) as [| raw l IH];
      [reflexivity |].
    cbn [existsb]. rewrite IH by (intros r Hr; apply Hnone; now right).
    f_equal. apply matchGitignorePattern_no_directory_pattern.
    apply Hnone. now left.
Qed.

Lemma split_allChars (p : ascii -> bool) (s : string) :
  allChars p s = true ->
  forall x, In x (JsString.split sep s) -> allChars p x = true.
Proof.
  induction s as [| c s IH]; cbn [allChars JsString.split].
  - intros _ x [<- | []]. reflexivity.
  - intros H. apply andb_true_iff in H. destruct H as [Hc Hs].
    specialize (IH Hs).
    destruct (c =? sep)%char.
    + intros x [<- | Hx]; [reflexivity | now apply IH].
    + destruct (JsString.split sep s) as [| t ts].
      * intros x [<- | []]. cbn [allChars]. now rewrite Hc.
      * intros x [<- | Hx].
        -- cbn [allChars]. rewrite Hc. apply IH. now left.
        -- apply IH. now right.
Qed.

Lemma normalizePath_slashes (s : string) :
  allChars isAnySlash s = true -> normalizePath s = EmptyString.
Proof.
  intros H. unfold normalizePath.
  assert (Hl : JsString.dropLeading isSlash
                 (JsString.replaceAll "\" "/" s) = EmptyString).
  { induction s as [| c s IH]; [reflexivity |].
    cbn [allChars] in H. apply andb_true_iff in H. destruct H as [Hc Hs].
    cbn [JsString.replaceAll JsString.dropLeading].
    unfold isAnySlash in Hc. apply orb_true_iff in Hc.
    destruct Hc as [Hc | Hc]; apply Ascii.eqb_eq in Hc; subst c;
      cbn; now apply IH. }
  now rewrite Hl.
Qed.

(** X24: the root itself is never ignored: a path made of slashes and
    backslashes only, the empty path among them, is not ignored,
    whatever the patterns. *)
Theorem shouldIgnore_root
    (this : FileSynchronizer) (relativePath : string) (isDirectory : bool) :
  allChars isAnySlash relativePath = true ->
  shouldIgnore sep minimatch this relativePath isDirectory = false.
Proof.
  intros H. unfold shouldIgnore.
  assert (Hhid : hasHiddenPart sep relativePath = false).
  { unfold hasHiddenPart.
    destruct (existsb _ (JsString.split sep relativePath)) eqn:E;
      [| reflexivity].
    apply existsb_exists in E. destruct E as [x [Hx Hdot]].
    apply (split_allChars _ _ H) in Hx.
    apply startsWith_char in Hdot. destruct Hdot as [rest ->].
    cbn in Hx. discriminate. }
  rewrite Hhid. destruct (_ =? 0)%nat; [reflexivity |].
  now rewrite (normalizePath_slashes _ H).
Qed.

End PathMatcherMore.

(** The pattern [*.log] with [dist/] put before it, and the patterns
    [*.log] and [dist/] in another order, one of them twice. *)
Lemma shouldIgnore_more_patterns_witness :
  shouldIgnore "/" Minimatch.minimatch
               (withPatterns (testSynchronizer ["*.log"]) ["dist/"; "*.log"])
               "a.log" false = true
  /\ shouldIgnore "/" Minimatch.minimatch
                  (withPatterns (testSynchronizer ["*.log"; "dist/"])
                                ["dist/"; "*.log"; "dist/"])
                  "dist" true
     = shouldIgnore "/" Minimatch.minimatch
                    (testSynchronizer ["*.log"; "dist/"]) "dist" true.
Proof.
  split.
  - apply (proj1 (shouldIgnore_more_patterns "/" Minimatch.minimatch
                    (testSynchronizer ["*.log"]) ["dist/"; "*.log"]
                    "a.log" false)).
    + cbn [testSynchronizer ignorePatterns In]. tauto.
    + vm_compute. reflexivity.
  - apply (proj2 (shouldIgnore_more_patterns "/" Minimatch.minimatch
                    (testSynchronizer ["*.log"; "dist/"])
                    ["dist/"; "*.log"; "dist/"] "dist" true)).
    cbn [testSynchronizer ignorePatterns In]. tauto.
Defined.

(** The pattern [build] on the path [build], and the pattern [*.log] on
    the path [a.log]. *)
Lemma shouldIgnore_file_directory_witness :
  shouldIgnore "/" Minimatch.minimatch (testSynchronizer ["build"])
               "build" true = true
  /\ shouldIgnore "/" Minimatch.minimatch (testSynchronizer ["*.log"])
                  "a.log" true
     = shouldIgnore "/" Minimatch.minimatch (testSynchronizer ["*.log"])
                    "a.log" false.
Proof.
  split.
  - apply (proj1 (shouldIgnore_file_directory "/" Minimatch.minimatch
                    (testSynchronizer ["build"]) "build")).
    vm_compute. reflexivity.
  - apply (proj2 (shouldIgnore_file_directory "/" Minimatch.minimatch
                    (testSynchronizer ["*.log"]) "a.log")).
    intros raw [<- | []]. vm_compute. reflexivity.
Defined.

(** The path [/] under the pattern [*]. *)
Lemma shouldIgnore_root_witness :
  shouldIgnore "/" Minimatch.minimatch (testSynchronizer ["*"]) "/" true
  = false.
Proof.
  apply (shouldIgnore_root "/" Minimatch.minimatch (testSynchronizer ["*"])
           "/" true).
  reflexivity.
Defined.

(** ** Patterns and the scan *)

Section NarrowerScan.

Variable sep : ascii.
Variable minimatch : string -> string -> MinimatchOptions -> bool.
Variable path_join : list string -> string.
Variable path_relative : string -> string -> string.
Variable sha256_hex : string -> string.

Lemma reaches_fewer_patterns (this this' : FileSynchronizer) (dir : string)
    (node : FsTree) (k h : string) :
  rootDir this' = rootDir this ->
  (forall p d, shouldIgnore sep minimatch this' p d = false ->
               shouldIgnore sep minimatch this p d = false) ->
  reaches sep minimatch path_join path_relative sha256_hex this' dir node k h ->
  reaches sep minimatch path_join path_relative sha256_hex this dir node k h.
Proof.
  intros Hroot Hfewer Hr.
  induction Hr as [dir entries name isDir restat content hash Hin E1 E2 Eh
                  | dir entries name isDir listing key hash Hin E1 E2 Hr IH];
    rewrite Hroot in *.
  - apply reaches_file with (direntIsDirectory := isDir) (restat := restat)
                            (content := content); auto.
  - apply reaches_directory with (name := name) (direntIsDirectory := isDir)
                                 (listing := listing); auto.
Qed.

(** X25: more patterns, fewer files: after [updateIgnorePatterns] with a
    list that holds the patterns of before and more, a scan of the same
    tree returns no path that the scan of before did not return. *)
Theorem updateIgnorePatterns_narrows_scan
    (this : FileSynchronizer) (patterns : list string) (fs : FileSystem)
    (dir : string) (tree : FsTree) (m m' : JsMap.t) (k : string) :
  (forall raw, In raw (ignorePatterns this) -> In raw patterns) ->
  generateFileHashes sep minimatch path_join path_relative sha256_hex
                     this dir tree = Ok m ->
  generateFileHashes sep minimatch path_join path_relative sha256_hex
                     (fst (snd (updateIgnorePatterns patterns (this, fs))))
                     dir tree = Ok m' ->
  JsMap.has m' k = true ->
  JsMap.has m k = true.
Proof.
  intros Hincl Hscan Hscan' Hhas.
  change (fst (snd (updateIgnorePatterns patterns (this, fs))))
    with (withPatterns this patterns) in Hscan'.
  apply get_has in Hhas. destruct Hhas as [h Hget]. apply get_In in Hget.
  apply (reaches_scanned sep minimatch path_join path_relative sha256_hex
           this dir tree k h); [| exact Hscan].
  apply (reaches_fewer_patterns this (withPatterns this patterns));
    [reflexivity | |].
  - intros p d Hp.
    destruct (shouldIgnore sep minimatch this p d) eqn:E; [| reflexivity].
    apply (shouldIgnore_mono sep minimatch this patterns) in E;
      [congruence | exact Hincl].
  - apply (scan_sound_height sep minimatch path_join path_relative sha256_hex
             (withPatterns this patterns) (height tree) tree (le_n _)
             dir m'); assumption.
Qed.

End NarrowerScan.

(** The sample repository, scanned with the pattern [node_modules/] and
    again once [src/] is ignored too. *)
Lemma updateIgnorePatterns_narrows_scan_witness :
  JsMap.has sampleHashes "a.txt" = true.
Proof.
  apply (updateIgnorePatterns_narrows_scan
           "/" Minimatch.minimatch joinSlash relativeSlash (fun s => s)
           sampleSynchronizer ["node_modules/"; "src/"] emptyDisk "/repo"
           sampleTree sampleHashes narrowHashes "a.txt").
  - cbn [sampleSynchronizer ignorePatterns In]. tauto.
  - vm_compute. reflexivity.
  - vm_compute. reflexivity.
  - reflexivity.
Defined.

(** ** The pattern [/public/app] and the scan *)











Section PublicAppScan.

Variable sha256_hex : string -> string.
Variable this : FileSynchronizer.
Hypothesis Hpat : In "/public/app" (ignorePatterns this).



End PublicAppScan.


